(** * Back-To-Top button with heading menu: a model of [main.js]

    The development follows the source file top to bottom: JavaScript
    strings and the one regular expression the plugin uses, the settings
    object, the [debounce] helper over a timer queue, the floating
    elements and their placement, [updateMenu] and [refreshHeaderList],
    and the two [onChange] callbacks of the settings tab.  Theorems come
    after the definitions. *)

From Stdlib Require Import ZArith NArith Ascii String.
From stdpp Require Import base option list gmap strings.

Local Open Scope nat_scope.
Local Open Scope list_scope.

(** ** JavaScript strings *)

(** A JavaScript string is a sequence of UTF-16 code units. *)
Definition char := N.
Definition str := list char.

(** ASCII literals, for writing documents down. *)
Definition js (s : string) : str :=
  map N_of_ascii (list_ascii_of_string s).

Definition LF : char := 10%N.
Definition CR : char := 13%N.
Definition LS : char := 8232%N.   (* U+2028 *)
Definition PS : char := 8233%N.   (* U+2029 *)
Definition HASH : char := 35%N.   (* # *)

(** [LineTerminator] of the language grammar. *)
Definition is_line_terminator (c : char) : bool :=
  (c =? LF)%N || (c =? CR)%N || (c =? LS)%N || (c =? PS)%N.

(** [WhiteSpace] of the language grammar: TAB, VT, FF, SP, NBSP, ZWNBSP and
    the code points of category Zs. *)
Definition is_white_space (c : char) : bool :=
  (c =? 9)%N || (c =? 11)%N || (c =? 12)%N || (c =? 32)%N || (c =? 160)%N
  || (c =? 5760)%N || ((8192 <=? c)%N && (c <=? 8202)%N)
  || (c =? 8239)%N || (c =? 8287)%N || (c =? 12288)%N || (c =? 65279)%N.

(** The class [\s]: white space or line terminator. *)
Definition class_s (c : char) : bool :=
  is_white_space c || is_line_terminator c.

(** The class [.] without the [s] flag: anything but a line terminator. *)
Definition class_dot (c : char) : bool := negb (is_line_terminator c).

(** The literal [#]. *)
Definition class_hash (c : char) : bool := (c =? HASH)%N.

(** [s.split('\n')]: the pieces between line feeds; never empty. *)
Fixpoint split_lines (s : str) : list str :=
  match s with
  | [] => [[]]
  | c :: s' =>
      if (c =? LF)%N then [] :: split_lines s'
      else match split_lines s' with
           | l :: ls => (c :: l) :: ls
           | [] => [[c]]
           end
  end.

(** ** Regular expressions

    A backtracking matcher for the fragment the plugin needs: the
    assertion [^], a greedy quantified character class [c{min,max}],
    concatenation and numbered capture groups. *)

Inductive regex : Type :=
| Bol
| Rep (c : char → bool) (min : nat) (max : option nat)
| Cat (r1 r2 : regex)
| Grp (i : nat) (r : regex).

(** May one more iteration be taken under the bound [max]? *)
Definition room (max : option nat) : bool :=
  match max with Some 0 => false | _ => true end.

Definition less (max : option nat) : option nat := pred <$> max.

Section Matcher.
Context {A : Type}.

(** Greedy repetition: take one more character when the class and the
    bound allow it, and fall back to stopping here (legal once [min]
    iterations are done) when the rest of the pattern fails. *)
Fixpoint rep (c : char → bool) (min : nat) (max : option nat) (s : str)
    (k : str → option A) : option A :=
  let stop := match min with 0 => k s | S _ => None end in
  match s with
  | x :: s' =>
      if c x && room max then
        match rep c (pred min) (less max) s' k with
        | Some r => Some r
        | None => stop
        end
      else stop
  | [] => stop
  end.

(** [pos] is the index of the next character, [s] the rest of the
    input, [caps] the captures so far, [k] the rest of the pattern. *)
Fixpoint run (r : regex) (pos : nat) (s : str) (caps : gmap nat str)
    (k : nat → str → gmap nat str → option A) : option A :=
  match r with
  | Bol => if decide (pos = 0) then k pos s caps else None
  | Rep c min max =>
      rep c min max s (λ s', k (pos + (length s - length s')) s' caps)
  | Cat r1 r2 => run r1 pos s caps (λ pos' s' caps', run r2 pos' s' caps' k)
  | Grp i r' =>
      run r' pos s caps
        (λ pos' s' caps', k pos' s' (<[i := take (pos' - pos) s]> caps'))
  end.
End Matcher.

(** [RegExp.prototype.exec] without the [g] and [y] flags: try each start
    index from 0; capture 0 is the whole match. *)
Fixpoint exec_from (r : regex) (pos : nat) (s : str) : option (gmap nat str) :=
  match run r pos s ∅ (λ pos' _ caps, Some (<[0 := take (pos' - pos) s]> caps)) with
  | Some m => Some m
  | None =>
      match s with
      | [] => None
      | _ :: s' => exec_from r (S pos) s'
      end
  end.

(** [s.match(r)] for a regular expression without the [g] flag. *)
Definition str_match (s : str) (r : regex) : option (gmap nat str) :=
  exec_from r 0 s.

(** [m[i]] on a match array; groups that took no part are [undefined],
    which does not arise for the pattern below. *)
Definition group (m : gmap nat str) (i : nat) : str := default [] (m !! i).

(** The pattern of [refreshHeaderList]: [^], then group 1 [#{1,6}], then
    [\s+], then group 2, a greedy star over the class [.]. *)
Definition header_regex : regex :=
  Cat Bol
    (Cat (Grp 1 (Rep class_hash 1 (Some 6)))
       (Cat (Rep class_s 1 None)
          (Grp 2 (Rep class_dot 0 None)))).

(** ** Numbers

    [clientWidth] is an integer (a 32-bit [long]) and the positioner
    multiplies it by the literal [0.1].  Every binary64 value met on that
    path is a multiple of 2^-55 and far from overflow, so a number is held
    as its numerator over 2^55 and the one rounding step of the
    multiplication is written out. *)

Module F64.
Local Open Scope Z_scope.

Definition t := Z.

Definition of_int (n : Z) : t := n * 2 ^ 55.

(** The literal [0.1]: 0x1.999999999999Ap-4 = 3602879701896397 / 2^55. *)
Definition tenth : t := 3602879701896397.

(** Round a positive numerator to 53 significant bits, ties to even. *)
Definition round_pos (p : Z) : Z :=
  let bits := Z.log2 p + 1 in
  if bits <=? 53 then p
  else
    let sh := bits - 53 in
    let q := p / 2 ^ sh in
    let r := p mod 2 ^ sh in
    let half := 2 ^ (sh - 1) in
    let q' := if r <? half then q
              else if half <? r then q + 1
              else if Z.even q then q else q + 1 in
    q' * 2 ^ sh.

Definition round (p : Z) : Z := Z.sgn p * round_pos (Z.abs p).

(** [n * x] for an integer-valued [n]: the exact product, rounded. *)
Definition mul_int (n : Z) (x : t) : t := round (n * x).

(** [Math.max] on two numbers (neither is NaN here). *)
Definition max (a b : t) : t := Z.max a b.
End F64.

(** ** Settings *)

(** [this.settings] once [loadSettings] has run: the four flags are
    present, the three snapshots may be [undefined]. *)
Record Settings := mkSettings {
  enableHeaderMenu : bool;
  showH1 : bool;
  showH2 : bool;
  showH3 : bool;
  previousShowH1 : option bool;
  previousShowH2 : option bool;
  previousShowH3 : option bool
}.

(** What [loadData] resolves to when a data file exists: any subset of
    the keys. *)
Record Data := mkData {
  d_enableHeaderMenu : option bool;
  d_showH1 : option bool;
  d_showH2 : option bool;
  d_showH3 : option bool;
  d_previousShowH1 : option bool;
  d_previousShowH2 : option bool;
  d_previousShowH3 : option bool
}.

Definition no_data : Data := mkData None None None None None None None.

(** [Object.assign({enableHeaderMenu: true, showH1: true, showH2: true,
    showH3: true}, data)]; a [null] source is skipped. *)
Definition loadSettings (data : option Data) : Settings :=
  let d := default no_data data in
  {| enableHeaderMenu := default true (d_enableHeaderMenu d);
     showH1 := default true (d_showH1 d);
     showH2 := default true (d_showH2 d);
     showH3 := default true (d_showH3 d);
     previousShowH1 := d_previousShowH1 d;
     previousShowH2 := d_previousShowH2 d;
     previousShowH3 := d_previousShowH3 d |}.

(** [saveData(this.settings)]: the object as it is; keys holding
    [undefined] are not written. *)
Definition saveSettings (s : Settings) : Data :=
  {| d_enableHeaderMenu := Some (enableHeaderMenu s);
     d_showH1 := Some (showH1 s);
     d_showH2 := Some (showH2 s);
     d_showH3 := Some (showH3 s);
     d_previousShowH1 := previousShowH1 s;
     d_previousShowH2 := previousShowH2 s;
     d_previousShowH3 := previousShowH3 s |}.

(** The heading tiers of the settings tab: ['H1'], ['H2'], ['H3']. *)
Inductive tier := H1 | H2 | H3.

(** [settings[`show${level}`]] *)
Definition show (level : tier) (s : Settings) : bool :=
  match level with H1 => showH1 s | H2 => showH2 s | H3 => showH3 s end.

(** [settings[`show${level}`] = value] *)
Definition set_show (level : tier) (value : bool) (s : Settings) : Settings :=
  match level with
  | H1 => mkSettings (enableHeaderMenu s) value (showH2 s) (showH3 s)
            (previousShowH1 s) (previousShowH2 s) (previousShowH3 s)
  | H2 => mkSettings (enableHeaderMenu s) (showH1 s) value (showH3 s)
            (previousShowH1 s) (previousShowH2 s) (previousShowH3 s)
  | H3 => mkSettings (enableHeaderMenu s) (showH1 s) (showH2 s) value
            (previousShowH1 s) (previousShowH2 s) (previousShowH3 s)
  end.

(** The settings part of the [onChange] callback of 'Enable Header
    Menu'. *)
Definition onChange_enableHeaderMenu (value : bool) (s : Settings) : Settings :=
  if negb value then
    {| enableHeaderMenu := value;
       showH1 := false; showH2 := false; showH3 := false;
       previousShowH1 := Some (showH1 s);
       previousShowH2 := Some (showH2 s);
       previousShowH3 := Some (showH3 s) |}
  else
    {| enableHeaderMenu := value;
       showH1 := default true (previousShowH1 s);
       showH2 := default true (previousShowH2 s);
       showH3 := default true (previousShowH3 s);
       previousShowH1 := previousShowH1 s;
       previousShowH2 := previousShowH2 s;
       previousShowH3 := previousShowH3 s |}.

(** The settings part of the [onChange] callback of 'Show H1..H3'. *)
Definition onChange_show (level : tier) (value : bool) (s : Settings) : Settings :=
  let s := set_show level value s in
  if value then
    mkSettings true (showH1 s) (showH2 s) (showH3 s)
      (previousShowH1 s) (previousShowH2 s) (previousShowH3 s)
  else s.

(** The toggles [display] builds: the main one always, the tier ones only
    while the menu is enabled. *)
Inductive toggle := EnableToggle | ShowToggle (level : tier).

Global Instance tier_eq_dec : EqDecision tier.
Proof. solve_decision. Defined.
Global Instance toggle_eq_dec : EqDecision toggle.
Proof. solve_decision. Defined.

Definition display (s : Settings) : list (toggle * bool) :=
  (EnableToggle, enableHeaderMenu s)
  :: (if enableHeaderMenu s
      then map (λ level, (ShowToggle level, show level s)) [H1; H2; H3]
      else []).


(** ** [debounce] over a timer queue *)

Section Debounce.
Context {S : Type}.
Variable func : S → S.
Variable delay : N.

(** The event loop as far as timers go, with the closure variable
    [timer] of the one debounced function and the state [func] acts on.
    [ran] logs the time of every call of [func]. *)
Record Loop := mkLoop {
  clock : N;
  next_handle : nat;
  queue : list (nat * N);        (* handle, due time; earliest first *)
  timer : option nat;
  world : S;
  ran : list N
}.

Fixpoint enqueue (h : nat) (due : N) (q : list (nat * N)) : list (nat * N) :=
  match q with
  | [] => [(h, due)]
  | (h', due') :: q' =>
      if (due' <=? due)%N then (h', due') :: enqueue h due q'
      else (h, due) :: q
  end.

(** [clearTimeout(timer)]; [undefined] and stale handles are ignored. *)
Definition clearTimeout (h : option nat) (l : Loop) : Loop :=
  match h with
  | None => l
  | Some h =>
      mkLoop (clock l) (next_handle l)
        (filter (λ e, e.1 ≠ h) (queue l)) (timer l) (world l) (ran l)
  end.

(** [setTimeout(() => func.apply(this, args), delay)]. *)
Definition setTimeout (l : Loop) : nat * Loop :=
  (next_handle l,
   mkLoop (clock l) (Datatypes.S (next_handle l))
     (enqueue (next_handle l) (clock l + delay)%N (queue l))
     (timer l) (world l) (ran l)).

(** One call of the function [debounce] returns. *)
Definition debounced (l : Loop) : Loop :=
  let l := clearTimeout (timer l) l in
  let '(h, l) := setTimeout l in
  mkLoop (clock l) (next_handle l) (queue l) (Some h) (world l) (ran l).

(** Let time pass until [t]: the timers due by then run, earliest
    first, each at its due time. *)
Fixpoint expire (t : N) (q : list (nat * N)) (w : S) (log : list N)
    : list (nat * N) * S * list N :=
  match q with
  | (h, due) :: q' =>
      if (due <=? t)%N then expire t q' (func w) (log ++ [due])
      else (q, w, log)
  | [] => ([], w, log)
  end.

Definition advance (t : N) (l : Loop) : Loop :=
  let '(q, w, log) := expire t (queue l) (world l) (ran l) in
  mkLoop (N.max (clock l) t) (next_handle l) q (timer l) w log.

(** The debounced function is called at each of the times [ts]. *)
Definition calls (ts : list N) (l : Loop) : Loop :=
  foldl (λ l t, debounced (advance t l)) l ts.

Definition idle (w : S) : Loop := mkLoop 0 0 [] None w [].
End Debounce.

Arguments Loop : clear implicits.
Arguments mkLoop {S}.
Arguments clock {S}.
Arguments next_handle {S}.
Arguments queue {S}.
Arguments timer {S}.
Arguments world {S}.
Arguments ran {S}.

(** ** The host: workspace, views, editor containers *)

Record File := mkFile { basename : str }.

(** [view.sourceMode.cmEditor]; [getDoc().getValue()] is the text. *)
Record Editor := mkEditor { getValue : str }.

Record SourceMode := mkSourceMode { cmEditor : option Editor }.

(** [containerEl.querySelector('.cm-s-obsidian')]: the element found, named
    by a number, or [null]. *)
Record Element := mkElement { querySelector : option nat }.

(** Every view answers [getViewType()].  [getMode] is a method of the
    markdown view only: [None] is a view without it, [Some m] one whose
    [getMode()] returns [m].  [containerEl] and [sourceMode] may be
    [undefined]. *)
Record View := mkView {
  getViewType : string;
  getMode : option string;
  containerEl : option Element;
  sourceMode : option SourceMode
}.

Record Leaf := mkLeaf { view : option View }.

Record Host := mkHost {
  activeLeaf : option Leaf;
  getActiveFile : option File;
  clientWidth : nat → Z
}.

(** ** The plugin *)

Inductive node := MenuContainer | TopButton.

Global Instance node_eq_dec : EqDecision node.
Proof. solve_decision. Defined.

(** A CSS length as the plugin writes it: a number followed by [px]. *)
Inductive css := Px (n : F64.t).

Record Style := mkStyle {
  width : option css;
  bottom : option css;
  right : option css
}.

(** One child of [this.headerList]. *)
Record HeaderItem := mkHeaderItem {
  innerText : str;
  dataset_line : nat;
  paddingLeft : nat               (* px *)
}.

(** What a registered workspace listener does. *)
Inductive listener :=
| CallUpdateMenu
| CallRefreshDebounced
| CallPosition (editorContainer : nat).

Record Plugin := mkPlugin {
  settings : Settings;
  headerList : list HeaderItem;
  menuDisplay : string;                 (* menuContainer.style.display *)
  menuStyle : Style;
  buttonStyle : Style;
  tree : list (nat * node);             (* container, floating child; child order *)
  events : list (string * listener)     (* registerEvent(workspace.on(..)) *)
}.

Definition set_settings (s : Settings) (p : Plugin) : Plugin :=
  mkPlugin s (headerList p) (menuDisplay p) (menuStyle p) (buttonStyle p)
    (tree p) (events p).
Definition set_headerList (l : list HeaderItem) (p : Plugin) : Plugin :=
  mkPlugin (settings p) l (menuDisplay p) (menuStyle p) (buttonStyle p)
    (tree p) (events p).
Definition set_menuDisplay (d : string) (p : Plugin) : Plugin :=
  mkPlugin (settings p) (headerList p) d (menuStyle p) (buttonStyle p)
    (tree p) (events p).
Definition set_menuStyle (st : Style) (p : Plugin) : Plugin :=
  mkPlugin (settings p) (headerList p) (menuDisplay p) st (buttonStyle p)
    (tree p) (events p).
Definition set_buttonStyle (st : Style) (p : Plugin) : Plugin :=
  mkPlugin (settings p) (headerList p) (menuDisplay p) (menuStyle p) st
    (tree p) (events p).
Definition set_tree (t : list (nat * node)) (p : Plugin) : Plugin :=
  mkPlugin (settings p) (headerList p) (menuDisplay p) (menuStyle p)
    (buttonStyle p) t (events p).

(** [this.registerEvent(this.app.workspace.on(name, callback))] *)
Definition registerEvent (name : string) (f : listener) (p : Plugin) : Plugin :=
  mkPlugin (settings p) (headerList p) (menuDisplay p) (menuStyle p)
    (buttonStyle p) (tree p) (events p ++ [(name, f)]).

(** [node.remove()]: leave the parent, if any. *)
Definition remove (n : node) (t : list (nat * node)) : list (nat * node) :=
  filter (λ e, e.2 ≠ n) t.

(** [parent.appendChild(node)]: a node that sits somewhere is moved. *)
Definition appendChild (parent : nat) (n : node) (t : list (nat * node))
    : list (nat * node) :=
  remove n t ++ [(parent, n)].

(** How many times a floating element occurs in the document. *)
Definition occurrences (n : node) (p : Plugin) : nat :=
  length (filter (λ e, e.2 = n) (tree p)).

(** How many listeners the plugin holds for a workspace event. *)
Definition listeners (name : string) (p : Plugin) : nat :=
  length (filter (λ e, e.1 = name) (events p)).

(** Neither floating element is in the document. *)
Definition Hidden (p : Plugin) : Prop := tree p = [].

Definition createFloatingElements (p : Plugin) : Plugin :=
  set_menuDisplay "none" p.

Definition removeFloatingElements (p : Plugin) : Plugin :=
  set_tree (remove TopButton (remove MenuContainer (tree p))) p.

(** [Math.max(120, editorWidth * 0.1)] *)
Definition menuWidth (editorWidth : Z) : F64.t :=
  F64.max (F64.of_int 120) (F64.mul_int editorWidth F64.tenth).

Definition positionFloatingElements (h : Host) (editorContainer : nat)
    (p : Plugin) : Plugin :=
  let editorWidth := clientWidth h editorContainer in
  let menuWidth := menuWidth editorWidth in
  let p := set_menuStyle
             (mkStyle (Some (Px menuWidth)) (Some (Px (F64.of_int 75)))
                (Some (Px (F64.of_int 30)))) p in
  set_buttonStyle
    (mkStyle (Some (Px menuWidth)) (Some (Px (F64.of_int 30)))
       (Some (Px (F64.of_int 30)))) p.

(** [array.forEach((x, index) => ..)] acting on a state. *)
Fixpoint forEach {A St : Type} (cb : A → nat → St → St) (l : list A)
    (index : nat) (s : St) : St :=
  match l with
  | [] => s
  | x :: l' => forEach cb l' (Datatypes.S index) (cb x index s)
  end.

(** The test that makes the callback return early. *)
Definition skipped (s : Settings) (level : nat) : bool :=
  ((level =? 1) && negb (showH1 s))
  || ((level =? 2) && negb (showH2 s))
  || ((level =? 3) && negb (showH3 s))
  || (3 <? level).

(** The callback of [lines.forEach] in [refreshHeaderList]. *)
Definition header_line (line : str) (index : nat) (p : Plugin) : Plugin :=
  match str_match line header_regex with
  | Some headerMatch =>
      let level := length (group headerMatch 1) in
      if skipped (settings p) level then p
      else
        let headerText := group headerMatch 2 in
        let headerItem :=
          {| innerText := headerText;
             dataset_line := index;
             paddingLeft := (level - 1) * 12 |} in
        set_headerList (headerList p ++ [headerItem]) p
  | None => p
  end.

Definition refreshHeaderList (h : Host) (p : Plugin) : Plugin :=
  let p := set_headerList [] p in
  match getActiveFile h with
  | None => p
  | Some activeFile =>
      match ((activeLeaf h ≫= view) ≫= sourceMode) ≫= cmEditor with
      | None => p
      | Some editor =>
          let lines := split_lines (getValue editor) in
          forEach header_line lines 0 p
      end
  end.

(** Failure of a property access on [null] or [undefined]. *)
Inductive result (A : Type) :=
| Ok (a : A)
| TypeError.
Arguments Ok {A}.
Arguments TypeError {A}.

Global Instance result_bind : MBind result :=
  λ A B f r, match r with Ok a => f a | TypeError => TypeError end.

(** [x.field] where [x] may be [null] or [undefined]. *)
Definition the {A : Type} (x : option A) : result A :=
  match x with Some a => Ok a | None => TypeError end.

Definition updateMenu (h : Host) (p : Plugin) : result Plugin :=
  let p := removeFloatingElements p in
  let activeLeaf := activeLeaf h in
  let isMarkdown :=
    bool_decide (getViewType <$> (activeLeaf ≫= view) = Some "markdown"%string) in
  mode ← match activeLeaf ≫= view with
          | Some v =>
              (* [view.getMode()]: calling a missing method throws *)
              m ← the (getMode v); Ok (Some m)
          | None => Ok None
          end;
  let isSourceMode := bool_decide (mode = Some "source"%string) in
  if isMarkdown && isSourceMode then
    leaf ← the activeLeaf ;
    v ← the (view leaf) ;
    match containerEl v ≫= querySelector with
    | Some editorContainer =>
        let p := set_tree (appendChild editorContainer TopButton (tree p)) p in
        let p := positionFloatingElements h editorContainer p in
        if enableHeaderMenu (settings p) then
          let p := set_tree (appendChild editorContainer MenuContainer (tree p)) p in
          let p := set_menuDisplay "block" p in
          let p := refreshHeaderList h p in
          Ok (registerEvent "layout-change" (CallPosition editorContainer) p)
        else Ok p
    | None => Ok p
    end
  else Ok p.

(** [onload], once the settings are read and the elements are built: the
    three listeners are registered once. *)
Definition onload (data : option Data) : Plugin :=
  let p := mkPlugin (loadSettings data) [] "" (mkStyle None None None)
             (mkStyle None None None) [] [] in
  let p := createFloatingElements p in
  let p := registerEvent "active-leaf-change" CallUpdateMenu p in
  let p := registerEvent "layout-change" CallUpdateMenu p in
  registerEvent "editor-change" CallRefreshDebounced p.

(** The delay [onload] passes to [debounce]. *)
Definition refresh_delay : N := 150.

(** The action [onload] wraps: [headerList] was appended to the menu
    container when the elements were built and never leaves it, so the
    test on its parent succeeds. *)
Definition refresh_action (h : Host) (p : Plugin) : Plugin :=
  refreshHeaderList h p.

(** One listener runs.  [CallRefreshDebounced] only touches the timer
    queue (section Debounce), not the plugin's fields. *)
Definition call (h : Host) (f : listener) (p : Plugin) : result Plugin :=
  match f with
  | CallUpdateMenu => updateMenu h p
  | CallRefreshDebounced => Ok p
  | CallPosition editorContainer => Ok (positionFloatingElements h editorContainer p)
  end.

(** The workspace fires an event: the listeners registered for it at that
    moment run in order of registration. *)
Definition trigger (name : string) (h : Host) (p : Plugin) : result Plugin :=
  foldl (λ r f, p ← r ; call h f p) (Ok p)
    (map snd (filter (λ e, e.1 = name) (events p))).

(** A run of events, the host unchanged throughout. *)
Definition triggers (names : list string) (h : Host) (p : Plugin)
    : result Plugin :=
  foldl (λ r name, p ← r; trigger name h p) (Ok p) names.

(** ** The settings tab *)

(** The plugin together with its data file and the toggles that are on
    the settings tab, as [display] built them last. *)
Record Session := mkSession {
  disk : option Data;
  plugin : Plugin;
  tab : list (toggle * bool)
}.

(** The settings after the first lines of an [onChange] callback. *)
Definition changed (c : toggle) (value : bool) (s : Settings) : Settings :=
  match c with
  | EnableToggle => onChange_enableHeaderMenu value s
  | ShowToggle level => onChange_show level value s
  end.

(** The [onChange] callbacks in full: change the settings, save,
    [updateMenu]; the closing [display()] rebuilds the toggles from the
    new settings. *)
Definition onChange (h : Host) (c : toggle) (value : bool) (w : Session)
    : result Session :=
  let s := changed c value (settings (plugin w)) in
  let p := set_settings s (plugin w) in
  let saved := Some (saveSettings (settings p)) in
  p ← updateMenu h p;
  Ok (mkSession saved p (display (settings p))).

(** What a callback leaves behind when its [updateMenu] throws: the
    settings are changed and saved, [updateMenu] has removed the floating
    elements, and [display()] was not reached, so the tab is as it was. *)
Definition onChange_rejected (c : toggle) (value : bool) (w : Session)
    : Session :=
  let s := changed c value (settings (plugin w)) in
  let p := set_settings s (plugin w) in
  mkSession (Some (saveSettings (settings p))) (removeFloatingElements p)
    (tab w).

(** What can happen to the settings: the plugin is loaded again, the
    settings tab is opened ([display()]), or the user flips a toggle that
    is on the tab. *)
Inductive action :=
| Reload
| Open
| Flip (c : toggle) (value : bool).

Definition act (h : Host) (a : action) (w : Session) : Session :=
  match a with
  | Reload => mkSession (disk w) (onload (disk w)) []
  | Open => mkSession (disk w) (plugin w) (display (settings (plugin w)))
  | Flip c value =>
      if bool_decide (c ∈ (tab w).*1) then
        match onChange h c value w with
        | Ok w' => w'
        | TypeError => onChange_rejected c value w
        end
      else w
  end.

(** A run of actions, each with the host as it is at that moment. *)
Definition acts (trace : list (Host * action)) (w : Session) : Session :=
  foldl (λ w e, act e.1 e.2 w) w trace.

(** A first start: no data file. *)
Definition fresh : Session := mkSession None (onload None) [].

(** ** Heading records *)

Record HeadingRecord := mkHeading {
  level : nat;
  text : str;
  sourceLineIndex : nat
}.

(** What the matching step of the [forEach] callback yields for one
    line: [headerMatch[1].length], [headerMatch[2]] and the index. *)
Definition heading_of_line (index : nat) (line : str) : option HeadingRecord :=
  headerMatch ← str_match line header_regex;
  Some (mkHeading (length (group headerMatch 1)) (group headerMatch 2) index).

(** Keep the results of [f index x] that exist, in order. *)
Fixpoint pick {A B : Type} (f : nat → A → option B) (index : nat) (l : list A)
    : list B :=
  match l with
  | [] => []
  | x :: l' =>
      match f index x with
      | Some b => b :: pick f (S index) l'
      | None => pick f (S index) l'
      end
  end.

(** The matching lines of a document, before any tier is filtered out. *)
Definition headings (doc : str) : list HeadingRecord :=
  pick heading_of_line 0 (split_lines doc).

(** The list item built for a heading. *)
Definition item_of (r : HeadingRecord) : HeaderItem :=
  {| innerText := text r;
     dataset_line := sourceLineIndex r;
     paddingLeft := (level r - 1) * 12 |}.

(** The tier filter of the callback. *)
Definition rendered (s : Settings) (hs : list HeadingRecord) : list HeaderItem :=
  item_of <$> filter (λ r, skipped s (level r) = false) hs.

(** *** The heading pattern in words

    "One to six leading # characters, then at least one whitespace
    character"; the level is the length of the # run and the text is what
    follows the first run of whitespace. *)

Fixpoint take_while {A : Type} (c : A → bool) (l : list A) : list A :=
  match l with
  | x :: l' => if c x then x :: take_while c l' else []
  | [] => []
  end.

Fixpoint drop_while {A : Type} (c : A → bool) (l : list A) : list A :=
  match l with
  | x :: l' => if c x then drop_while c l' else l
  | [] => []
  end.

Definition starts_with (c : char → bool) (s : str) : bool :=
  match s with x :: _ => c x | [] => false end.

Definition atx (line : str) : option (nat * str) :=
  let run := take_while class_hash line in
  let rest := drop_while class_hash line in
  if bool_decide (1 ≤ length run ≤ 6) && starts_with class_s rest
  then Some (length run, drop_while class_s rest)
  else None.

Definition atx_heading (index : nat) (line : str) : option HeadingRecord :=
  '(lv, t) ← atx line; Some (mkHeading lv t index).

(** The same, with the text ending before the first line terminator
    that is left in the line (CR, U+2028 or U+2029). *)
Definition atx_heading_cut (index : nat) (line : str) : option HeadingRecord :=
  '(lv, t) ← atx line; Some (mkHeading lv (take_while class_dot t) index).

(** A document from its lines. *)
Definition unlines (ls : list str) : str :=
  concat ((λ l, l ++ [LF]) <$> ls).

(** How far a greedy repetition gets. *)
Fixpoint span (c : char → bool) (max : option nat) (s : str) : nat :=
  match s with
  | x :: s' => if c x && room max then S (span c (less max) s') else 0
  | [] => 0
  end.

(** What the pattern captures on a line, read off the three greedy
    runs. *)
Definition header_captures (line : str) : option (gmap nat str) :=
  let n := span class_hash (Some 6) line in
  let s1 := drop n line in
  let w := span class_s None s1 in
  let s2 := drop w s1 in
  let d := span class_dot None s2 in
  if bool_decide (1 ≤ n ∧ 1 ≤ w)
  then Some (<[0 := take (n + w + d) line]>
               (<[2 := take d s2]> (<[1 := take n line]> ∅)))
  else None.

(** *** Sample hosts and documents *)

(** A markdown view in source mode whose editor holds [doc], with the
    editor container [7], [width] wide. *)
Definition editing (doc : str) (width : Z) : Host :=
  mkHost
    (Some (mkLeaf (Some (mkView "markdown" (Some "source"%string)
                           (Some (mkElement (Some 7)))
                           (Some (mkSourceMode (Some (mkEditor doc))))))))
    (Some (mkFile (js "note")))
    (λ _, width).

(** The plugin after [onload] with the given settings. *)
Definition loaded (s : Settings) : Plugin := set_settings s (onload None).

(** The editor container [updateMenu] attaches to, if the active leaf is
    a markdown view in source mode that has one. *)
Definition editable_surface (h : Host) : option nat :=
  leaf ← activeLeaf h;
  v ← view leaf;
  if bool_decide (getViewType v = "markdown"%string)
     && bool_decide (getMode v = Some "source"%string)
  then containerEl v ≫= querySelector
  else None.

(** The active view has no [getMode] method. *)
Definition lacks_getMode (h : Host) : bool :=
  match activeLeaf h ≫= view with
  | Some v => bool_decide (getMode v = None)
  | None => false
  end.

(** The items [refreshHeaderList] builds for a host state and settings. *)
Definition outline (h : Host) (s : Settings) : list HeaderItem :=
  match getActiveFile h, ((activeLeaf h ≫= view) ≫= sourceMode) ≫= cmEditor with
  | Some _, Some editor => rendered s (headings (getValue editor))
  | _, _ => []
  end.


(** The listener [updateMenu] registers for the container [c]. *)
Definition position_listener (c : nat) : string * listener :=
  ("layout-change"%string, CallPosition c).

(** The state of the plugin after [k] calls of [updateMenu] on the
    editable surface [c]: the three listeners of [onload] and [k] more. *)
Definition after_updates (data : option Data) (c k : nat) (p : Plugin) : Prop :=
  events p = events (onload data) ++ replicate k (position_listener c)
  ∧ settings p = loadSettings data
  ∧ (1 ≤ k → tree p = [(c, TopButton); (c, MenuContainer)]).

(** The only timer in the queue, if any, is the one the debounced
    function remembers. *)
Definition own_timer {S : Type} (l : Loop S) : Prop :=
  ∀ e, e ∈ queue l → timer l = Some e.1.

(** One execution is pending, due [delay] after the call at [t]. *)
Definition armed {S : Type} (delay : N) (t : N) (l : Loop S) : Prop :=
  clock l = t ∧ ∃ h, queue l = [(h, (t + delay)%N)] ∧ timer l = Some h.

(** Successive call times: never earlier than the one before, and less
    than [delay] after it. *)
Fixpoint in_quick_succession (delay : N) (t : N) (ts : list N) : Prop :=
  match ts with
  | [] => True
  | t' :: ts' => (t ≤ t' ∧ t' < t + delay)%N ∧ in_quick_succession delay t' ts'
  end.

(** ** The rest of the plugin *)

(** [onunload] *)
Definition onunload (p : Plugin) : Plugin := removeFloatingElements p.

(** What the plugin asks of the host. *)
Inductive command :=
| ScrollTo (x y : Z)
| OpenLinkText (linktext sourcePath : str) (newLeaf : bool).

(** [scrollToTop]: [cmEditor?.scrollTo(0, 0)] at the end of an optional
    chain; nothing happens when a link of the chain is missing. *)
Definition scrollToTop (h : Host) : list command :=
  match ((activeLeaf h ≫= view) ≫= sourceMode) ≫= cmEditor with
  | Some _ => [ScrollTo 0 0]
  | None => []
  end.

(** [navigateToHeader] *)
Definition navigateToHeader (h : Host) (headerText : str) : list command :=
  match getActiveFile h with
  | Some activeFile =>
      [OpenLinkText (basename activeFile ++ [HASH] ++ headerText) [] false]
  | None => []
  end.

(** The click listener of a list item: it navigates with the text the
    item was built from. *)
Definition click_item (h : Host) (item : HeaderItem) : list command :=
  navigateToHeader h (innerText item).

(** [lines.join('\n')] *)
Fixpoint join_lines (ls : list str) : str :=
  match ls with
  | [] => []
  | [l] => l
  | l :: ls' => l ++ LF :: join_lines ls'
  end.

(** What [updateMenu] returns, field by field. *)
Definition updated (h : Host) (p : Plugin) : Plugin :=
  match editable_surface h with
  | None =>
      mkPlugin (settings p) (headerList p) (menuDisplay p) (menuStyle p)
        (buttonStyle p) [] (events p)
  | Some c =>
      let w := menuWidth (clientWidth h c) in
      let ms := mkStyle (Some (Px w)) (Some (Px (F64.of_int 75)))
                  (Some (Px (F64.of_int 30))) in
      let bs := mkStyle (Some (Px w)) (Some (Px (F64.of_int 30)))
                  (Some (Px (F64.of_int 30))) in
      if enableHeaderMenu (settings p) then
        mkPlugin (settings p) (outline h (settings p)) "block" ms bs
          [(c, TopButton); (c, MenuContainer)]
          (events p ++ [position_listener c])
      else
        mkPlugin (settings p) (headerList p) (menuDisplay p) ms bs
          [(c, TopButton)] (events p)
  end.

(** A run of workspace events, each with the host as it is then. *)
Definition dispatch (evs : list (Host * string)) (p : Plugin) : result Plugin :=
  foldl (λ r e, p ← r; trigger e.2 e.1 p) (Ok p) evs.

(** A listener that [updateMenu] registered. *)
Definition is_position_listener (e : string * listener) : Prop :=
  ∃ c, e = position_listener c.

(** While the menu is disabled, the three snapshots are there. *)
Definition snapshot_kept (s : Settings) : Prop :=
  enableHeaderMenu s = false →
  is_Some (previousShowH1 s) ∧ is_Some (previousShowH2 s)
  ∧ is_Some (previousShowH3 s).

(** [onunload] as the event loop sees it: the floating elements go, the
    timer queue is not touched. *)
Definition unload (l : Loop Plugin) : Loop Plugin :=
  mkLoop (clock l) (next_handle l) (queue l) (timer l) (onunload (world l))
    (ran l).


(** Strictly increasing numbers. *)
Fixpoint increasing (l : list nat) : Prop :=
  match l with
  | [] => True
  | x :: l' => Forall (λ y, x < y) l' ∧ increasing l'
  end.

(** The indentation [refreshHeaderList] gives the items of a tier. *)
Definition indent (lv : tier) : nat :=
  match lv with H1 => 0 | H2 => 12 | H3 => 24 end.

(** What the timer queue of a debounced function looks like at any
    moment after [n] calls, starting from [w]. *)
Definition debounce_inv {S : Type} (func : S → S) (w : S) (n : nat)
    (l : Loop S) : Prop :=
  own_timer l
  ∧ length (queue l) ≤ 1
  ∧ length (ran l) + length (queue l) ≤ n
  ∧ world l = Nat.iter (length (ran l)) func w.

(** * Properties *)

(** ** The matcher *)

Lemma span_le c max s : span c max s ≤ length s.
Proof.
  revert max; induction s as [|x s IH]; intros max; simpl; [lia|].
  destruct (c x && room max); simpl; [|lia].
  specialize (IH (less max)); lia.
Qed.

Lemma span_drop_head c max s j :
  j < span c max s → ∃ x rest, drop j s = x :: rest ∧ c x = true.
Proof.
  revert max j; induction s as [|x s IH]; intros max j; simpl; [lia|].
  destruct (c x && room max) eqn:E; [|lia].
  apply andb_true_iff in E as [Hc _].
  destruct j as [|j]; simpl; [eauto|].
  intros Hj. apply (IH (less max)). lia.
Qed.

Section RepFacts.
Context {A : Type}.
Implicit Types (k : str → option A).

(** The longest run is tried first. *)
Lemma rep_longest c min max s k :
  min ≤ span c max s →
  is_Some (k (drop (span c max s) s)) →
  rep c min max s k = k (drop (span c max s) s).
Proof.
  revert min max; induction s as [|x s IH]; intros min max; simpl.
  - intros Hmin _. destruct min; [done|lia].
  - destruct (c x && room max); simpl.
    + intros Hmin Hk.
      rewrite IH by (done || lia).
      destruct Hk as [r Hr]. by rewrite Hr.
    + intros Hmin _. destruct min; [done|lia].
Qed.

(** No admissible length works: the repetition fails. *)
Lemma rep_fails c min max s k :
  (∀ j, min ≤ j ≤ span c max s → k (drop j s) = None) →
  rep c min max s k = None.
Proof.
  revert min max; induction s as [|x s IH]; intros min max; simpl.
  - intros H. destruct min; [|done]. apply (H 0). lia.
  - destruct (c x && room max); simpl.
    + intros H. rewrite IH.
      * destruct min; [|done]. apply (H 0). lia.
      * intros j Hj. apply (H (S j)). lia.
    + intros H. destruct min; [|done]. apply (H 0). lia.
Qed.
End RepFacts.

Lemma length_drop_sub (s : str) j : j ≤ length s → length s - length (drop j s) = j.
Proof. intros H. rewrite length_drop. lia. Qed.

(** A pattern anchored with [^] matches nowhere but at index 0. *)
Lemma exec_from_anchored r pos s :
  pos ≠ 0 → exec_from (Cat Bol r) pos s = None.
Proof.
  revert pos; induction s as [|x s IH]; intros pos Hpos; simpl;
    destruct (decide (pos = 0)); try done.
  apply IH. lia.
Qed.

Lemma str_match_anchored r s :
  str_match s (Cat Bol r)
  = run r 0 s ∅ (λ pos' _ caps, Some (<[0 := take (pos' - 0) s]> caps)).
Proof.
  unfold str_match. destruct s as [|x s]; simpl.
  - by destruct (run r 0 [] ∅ _).
  - rewrite exec_from_anchored by lia. by destruct (run r 0 (x :: s) ∅ _).
Qed.


Section RepMore.
Context {A : Type}.
Implicit Types (k : str → option A).

Lemma rep_ext c min max s k k' :
  (∀ s', k s' = k' s') → rep c min max s k = rep c min max s k'.
Proof.
  intros E. revert min max; induction s as [|x s IH]; intros min max; simpl.
  - by rewrite E.
  - rewrite IH, E. done.
Qed.

(** The star over [.] in front of a pattern that cannot fail. *)
Lemma rep_dot_star s k :
  (∀ s', is_Some (k s')) →
  rep class_dot 0 None s k = k (drop (span class_dot None s) s).
Proof. intros Hk. apply rep_longest; [lia|apply Hk]. Qed.

(** [\s+] in front of a pattern that cannot fail. *)
Lemma rep_s_plus s k :
  (∀ s', is_Some (k s')) →
  rep class_s 1 None s k
  = if bool_decide (1 ≤ span class_s None s)
    then k (drop (span class_s None s) s) else None.
Proof.
  intros Hk. case_bool_decide.
  - apply rep_longest; [done|apply Hk].
  - apply rep_fails. intros j Hj. lia.
Qed.
End RepMore.

(** The pattern of [refreshHeaderList], solved. *)
Lemma header_regex_match line :
  str_match line header_regex = header_captures line.
Proof.
  unfold header_regex. rewrite str_match_anchored.
  cbn [run]. unfold header_captures.
  etrans.
  { apply rep_ext. intros s1.
    rewrite rep_s_plus; [|intros; rewrite rep_dot_star; eauto].
    rewrite rep_dot_star by eauto. reflexivity. }
  set (n := span class_hash (Some 6) line).
  assert (Hn : n ≤ length line) by apply span_le.
  set (K := λ s1 : str, if bool_decide (1 ≤ span class_s None s1) then _ else None).
  assert (HK : ∀ j, j ≤ length line →
    K (drop j line)
    = let s1 := drop j line in
      let w := span class_s None s1 in
      let s2 := drop w s1 in
      let d := span class_dot None s2 in
      if bool_decide (1 ≤ w)
      then Some (<[0 := take (j + w + d) line]>
                   (<[2 := take d s2]> (<[1 := take j line]> ∅)))
      else None).
  { intros j Hj. unfold K. cbn zeta.
    case_bool_decide; [|done].
    rewrite !length_drop_sub by (done || apply span_le).
    do 2 f_equal; [f_equal; lia|]. f_equal; [f_equal; lia|].
    f_equal. f_equal. lia. }
  clearbody K.
  destruct (bool_decide (1 ≤ span class_s None (drop n line))) eqn:Hw.
  - apply bool_decide_eq_true in Hw.
    case_bool_decide as Hn1.
    + rewrite rep_longest; fold n; rewrite ?HK by done; cbn zeta;
        rewrite ?bool_decide_eq_true_2 by done; (done || lia || eauto).
    + apply rep_fails. fold n. intros j Hj. lia.
  - apply bool_decide_eq_false in Hw.
    rewrite bool_decide_eq_false_2 by lia.
    apply rep_fails. fold n. intros j Hj.
    rewrite HK by lia. cbn zeta.
    rewrite bool_decide_eq_false_2; [done|].
    destruct (decide (j = n)) as [->|Hne]; [done|].
    destruct (span_drop_head class_hash (Some 6) line j) as (x & rest & -> & Hx);
      [fold n; lia|].
    simpl. unfold class_hash in Hx. apply N.eqb_eq in Hx. subst x.
    vm_compute. lia.
Qed.

(** ** Greedy runs and the words of the pattern *)

Lemma take_drop_while {A} (c : A → bool) (l : list A) :
  take_while c l ++ drop_while c l = l.
Proof. induction l as [|x l IH]; simpl; [done|]. destruct (c x); simpl; congruence. Qed.

Lemma span_unbounded c s : span c None s = length (take_while c s).
Proof. induction s as [|x s IH]; simpl; [done|]. destruct (c x); simpl; congruence. Qed.

Lemma span_bounded c m s : span c (Some m) s = m `min` length (take_while c s).
Proof.
  revert m; induction s as [|x s IH]; intros m; simpl; [lia|].
  destruct (c x), m as [|m]; simpl; rewrite ?IH; lia.
Qed.

Lemma drop_take_while {A} (c : A → bool) (l : list A) :
  drop (length (take_while c l)) l = drop_while c l.
Proof. induction l as [|x l IH]; simpl; [done|]. by destruct (c x). Qed.

Lemma take_take_while {A} (c : A → bool) (l : list A) :
  take (length (take_while c l)) l = take_while c l.
Proof. induction l as [|x l IH]; simpl; [done|]. destruct (c x); simpl; congruence. Qed.

Lemma starts_with_span c s : starts_with c s = bool_decide (1 ≤ span c None s).
Proof.
  destruct s as [|x s]; cbn [starts_with span].
  - symmetry. apply bool_decide_eq_false_2. lia.
  - destruct (c x); cbn [andb room]; symmetry.
    + apply bool_decide_eq_true_2. lia.
    + apply bool_decide_eq_false_2. lia.
Qed.

Lemma group_1 (a b c : str) :
  group (<[0 := a]> (<[2 := b]> (<[1 := c]> ∅))) 1 = c.
Proof. unfold group. by simplify_map_eq. Qed.

Lemma group_2 (a b c : str) :
  group (<[0 := a]> (<[2 := b]> (<[1 := c]> ∅))) 2 = b.
Proof. unfold group. by simplify_map_eq. Qed.

(** The matching step of the callback is the pattern in words, with the
    text stopping at a line terminator. *)
Lemma heading_of_line_atx index line :
  heading_of_line index line = atx_heading_cut index line.
Proof.
  unfold heading_of_line, atx_heading_cut, atx.
  rewrite header_regex_match. unfold header_captures.
  rewrite span_bounded, starts_with_span.
  pose proof (take_drop_while class_hash line) as Hsplit.
  pose proof (drop_take_while class_hash line) as Hdrop.
  remember (length (take_while class_hash line)) as h eqn:Eh.
  assert (Hh : h ≤ length line).
  { rewrite <- Hsplit. rewrite length_app. lia. }
  destruct (decide (h ≤ 6)) as [Hle|Hgt].
  - replace (6 `min` h) with h by lia.
    rewrite !Hdrop.
    set (rest := drop_while class_hash line) in *.
    destruct (decide (1 ≤ h)) as [H1|H0].
    + rewrite (bool_decide_eq_true_2 (1 ≤ h ≤ 6)) by lia. cbn [andb].
      case_bool_decide as Hw.
      * rewrite bool_decide_eq_true_2 by lia. cbn.
        rewrite group_1, group_2, length_take.
        rewrite !span_unbounded, !drop_take_while, take_take_while.
        do 2 f_equal. lia.
      * rewrite bool_decide_eq_false_2 by lia. done.
    + rewrite (bool_decide_eq_false_2 (1 ≤ h ≤ 6)) by lia.
      rewrite bool_decide_eq_false_2 by lia. done.
  - replace (6 `min` h) with 6 by lia.
    rewrite (bool_decide_eq_false_2 (1 ≤ h ≤ 6)) by lia. cbn [andb].
    rewrite bool_decide_eq_false_2; [done|].
    intros [_ Hw]. revert Hw.
    destruct (span_drop_head class_hash None line 6) as (x & rest & -> & Hx).
    { rewrite span_unbounded. lia. }
    simpl. unfold class_hash in Hx. apply N.eqb_eq in Hx. subst x.
    vm_compute. lia.
Qed.

Lemma pick_ext {A B} (f g : nat → A → option B) i l :
  (∀ j x, f j x = g j x) → pick f i l = pick g i l.
Proof.
  intros E. revert i; induction l as [|x l IH]; intros i; simpl; [done|].
  by rewrite E, IH.
Qed.

(** ** [refreshHeaderList] as extraction followed by the tier filter *)

Lemma rendered_app s hs1 hs2 :
  rendered s (hs1 ++ hs2) = rendered s hs1 ++ rendered s hs2.
Proof. unfold rendered. by rewrite filter_app, fmap_app. Qed.

Lemma header_line_heading line index p :
  header_line line index p
  = match heading_of_line index line with
    | Some r =>
        if skipped (settings p) (level r) then p
        else set_headerList (headerList p ++ [item_of r]) p
    | None => p
    end.
Proof.
  unfold header_line, heading_of_line.
  by destruct (str_match line header_regex).
Qed.

Lemma forEach_header_line lines index p :
  forEach header_line lines index p
  = set_headerList
      (headerList p ++ rendered (settings p) (pick heading_of_line index lines)) p.
Proof.
  revert index p; induction lines as [|line lines IH]; intros index p;
    cbn [forEach pick].
  - unfold rendered. rewrite filter_nil, fmap_nil, app_nil_r. by destruct p.
  - rewrite IH, header_line_heading.
    destruct (heading_of_line index line) as [r|]; [|done].
    unfold rendered. rewrite filter_cons.
    destruct (skipped (settings p) (level r)) eqn:E.
    + by rewrite decide_False by done.
    + rewrite decide_True by done. rewrite fmap_cons. cbn.
      by rewrite <- app_assoc.
Qed.

(** [refreshHeaderList] replaces the list by the outline. *)
Lemma refreshHeaderList_outline h p :
  refreshHeaderList h p = set_headerList (outline h (settings p)) p.
Proof.
  unfold refreshHeaderList, outline.
  destruct (getActiveFile h); [|done].
  destruct (_ ≫= cmEditor); [|done].
  rewrite forEach_header_line. by destruct p.
Qed.

(** The list [refreshHeaderList] leaves behind when a file is active and
    the editor is there. *)
Lemma refreshHeaderList_ready h p activeFile editor :
  getActiveFile h = Some activeFile →
  ((activeLeaf h ≫= view) ≫= sourceMode) ≫= cmEditor = Some editor →
  refreshHeaderList h p
  = set_headerList (rendered (settings p) (headings (getValue editor))) p.
Proof.
  intros Hf He. unfold refreshHeaderList. rewrite Hf, He.
  rewrite forEach_header_line. by destruct p.
Qed.

(** ** Heading extraction *)

Lemma pick_atx_levels index lines :
  Forall (λ r, 1 ≤ level r ≤ 6) (pick atx_heading_cut index lines).
Proof.
  revert index; induction lines as [|line lines IH]; intros index; simpl;
    [constructor|].
  destruct (atx_heading_cut index line) as [r|] eqn:E; [|apply IH].
  constructor; [|apply IH].
  unfold atx_heading_cut, atx in E.
  destruct (bool_decide _ && _) eqn:B; [|done]. simpl in E.
  apply andb_true_iff in B as [B _]. apply bool_decide_eq_true in B.
  by inversion E; subst.
Qed.

(** On a line without CR, U+2028 and U+2029 the text is the whole
    remainder. *)
Lemma take_while_id {A} (c : A → bool) (l : list A) :
  Forall (λ x, c x = true) l → take_while c l = l.
Proof. induction 1 as [|x l Hx _ IH]; simpl; [done|]. by rewrite Hx, IH. Qed.

Lemma Forall_drop_while {A} (P : A → Prop) (c : A → bool) (l : list A) :
  Forall P l → Forall P (drop_while c l).
Proof.
  induction 1 as [|x l Hx Hl IH]; simpl; [constructor|].
  destruct (c x); [done|by constructor].
Qed.

Lemma atx_heading_cut_plain index line :
  Forall (λ x, class_dot x = true) line →
  atx_heading_cut index line = atx_heading index line.
Proof.
  intros Hline. unfold atx_heading_cut, atx_heading.
  destruct (atx line) as [[lv t]|] eqn:E; [|done]. cbn.
  unfold atx in E. destruct (bool_decide _ && _); [|discriminate].
  inversion E; subst. rewrite (take_while_id class_dot); [done|].
  by do 2 apply Forall_drop_while.
Qed.

Lemma headings_atx doc :
  headings doc = pick atx_heading_cut 0 (split_lines doc).
Proof. apply pick_ext. intros. apply heading_of_line_atx. Qed.

(** The sample outline: the level-4 line is matched but not listed. *)
Example sample_outline :
  let doc := unlines [js "# Intro"; js "text"; js "## Setup";
                      js "### Details"; js "#### Skip"] in
  (λ r, (level r, text r)) <$> headings doc
  = [(1, js "Intro"); (2, js "Setup"); (3, js "Details"); (4, js "Skip")]
  ∧ headerList (refreshHeaderList (editing doc 1000) (onload None))
    = [mkHeaderItem (js "Intro") 0 0; mkHeaderItem (js "Setup") 2 12;
       mkHeaderItem (js "Details") 3 24].
Proof. split; by vm_compute. Qed.

(** C1, as amended: every line that starts with one to six [#] followed
    by whitespace yields exactly one record, in document order; its level
    is the number of leading [#] (1 to 6) and its text is what follows the
    whitespace run, up to the first line terminator left in the line (CR,
    U+2028, U+2029) if there is one.  No other line yields a record.  The
    list [refreshHeaderList] builds is the tier filter applied to these
    records. *)
Theorem heading_extraction (doc : str) :
  headings doc = pick atx_heading_cut 0 (split_lines doc)
  ∧ Forall (λ r, 1 ≤ level r ≤ 6) (headings doc)
  ∧ (∀ width p,
       headerList (refreshHeaderList (editing doc width) p)
       = rendered (settings p) (headings doc)).
Proof.
  split; [apply headings_atx|]. split.
  - rewrite headings_atx. apply pick_atx_levels.
  - intros width p. by rewrite refreshHeaderList_outline.
Qed.

(** C1 as stated fails: on the one-line document [# a<U+2028>b] the text
    recorded is [a], not the remainder [a<U+2028>b]. *)
Lemma heading_text_stops_at_line_terminator :
  let doc := js "# a" ++ [LS] ++ js "b" in
  headings doc = [mkHeading 1 (js "a") 0]
  ∧ pick atx_heading 0 (split_lines doc) = [mkHeading 1 (js "a" ++ [LS] ++ js "b") 0]
  ∧ headings doc ≠ pick atx_heading 0 (split_lines doc).
Proof.
  cbn zeta. rewrite headings_atx.
  split; [by vm_compute|]. split; [by vm_compute|]. by vm_compute.
Qed.

(** ** Lines that are not headings *)




(** ** Tier filtering *)

Lemma skipped_deep s lv : 4 ≤ lv → skipped s lv = true.
Proof.
  intros H. unfold skipped.
  replace (3 <? lv) with true by (symmetry; apply Nat.ltb_lt; lia).
  by rewrite orb_true_r.
Qed.

Lemma rendered_shallow s hs :
  rendered s hs = rendered s (filter (λ r, level r ≤ 3) hs).
Proof.
  unfold rendered. f_equal.
  induction hs as [|r hs IH]; [done|].
  rewrite !filter_cons. destruct (decide (level r ≤ 3)) as [Hle|Hgt].
  - rewrite filter_cons. destruct (decide (skipped s (level r) = false));
      by rewrite IH.
  - rewrite decide_False; [done|].
    rewrite skipped_deep by lia. done.
Qed.

(** C3: with showH1 off and showH2, showH3 on, headings of levels 1, 2,
    3, 4 are rendered as the level-2 and the level-3 item, in that order;
    and whatever the settings, headings of level 4 or more contribute
    nothing to the rendered list. *)
Theorem tier_filtering (h : Host) (p : Plugin) (activeFile : File)
    (editor : Editor) :
  getActiveFile h = Some activeFile →
  ((activeLeaf h ≫= view) ≫= sourceMode) ≫= cmEditor = Some editor →
  (∀ r1 r2 r3 r4,
     headings (getValue editor) = [r1; r2; r3; r4] →
     level r1 = 1 → level r2 = 2 → level r3 = 3 → level r4 = 4 →
     showH1 (settings p) = false → showH2 (settings p) = true →
     showH3 (settings p) = true →
     headerList (refreshHeaderList h p) = [item_of r2; item_of r3])
  ∧ headerList (refreshHeaderList h p)
    = rendered (settings p)
        (filter (λ r, level r ≤ 3) (headings (getValue editor))).
Proof.
  intros Hf He. rewrite (refreshHeaderList_ready _ _ _ _ Hf He).
  destruct p as [s l d ms bs t ev]; cbn [headerList set_headerList settings].
  split; [|apply rendered_shallow].
  intros r1 r2 r3 r4 -> L1 L2 L3 L4 S1 S2 S3.
  unfold rendered, skipped. rewrite !filter_cons, filter_nil.
  rewrite L1, L2, L3, L4, S1, S2, S3. reflexivity.
Qed.

Lemma tier_filtering_witness :
  let doc := unlines [js "# One"; js "## Two"; js "### Three"; js "#### Four"] in
  let p := loaded (mkSettings true false true true None None None) in
  headerList (refreshHeaderList (editing doc 1000) p)
  = [mkHeaderItem (js "Two") 1 12; mkHeaderItem (js "Three") 2 24].
Proof.
  intros doc p.
  assert (Hf : getActiveFile (editing doc 1000) = Some (mkFile (js "note")))
    by reflexivity.
  assert (He : ((activeLeaf (editing doc 1000) ≫= view) ≫= sourceMode) ≫= cmEditor
               = Some (mkEditor doc)) by reflexivity.
  apply (proj1 (tier_filtering (editing doc 1000) p _ _ Hf He)
           (mkHeading 1 (js "One") 0) (mkHeading 2 (js "Two") 1)
           (mkHeading 3 (js "Three") 2) (mkHeading 4 (js "Four") 3));
    reflexivity.
Defined.

(** ** [updateMenu] *)

Lemma remove_both (t : list (nat * node)) :
  remove TopButton (remove MenuContainer t) = [].
Proof.
  unfold remove. induction t as [|[c n] t IH]; [done|].
  rewrite filter_cons. destruct n; cbn.
  - by rewrite decide_False by (intros ?; done).
  - rewrite decide_True by done. rewrite filter_cons. cbn.
    by rewrite decide_False by (intros ?; done).
Qed.

Lemma removeFloatingElements_tree p : tree (removeFloatingElements p) = [].
Proof. unfold removeFloatingElements. cbn. apply remove_both. Qed.

Lemma updateMenu_throws h p :
  lacks_getMode h = true → updateMenu h p = TypeError.
Proof.
  unfold lacks_getMode, updateMenu. cbn zeta.
  destruct (activeLeaf h ≫= view) as [v|]; [|done].
  intros Hm. apply bool_decide_eq_true in Hm. by rewrite Hm.
Qed.

Lemma updateMenu_returns h p p' :
  updateMenu h p = Ok p' → lacks_getMode h = false.
Proof.
  destruct (lacks_getMode h) eqn:E; [|done].
  by rewrite (updateMenu_throws h p E).
Qed.

Lemma editable_surface_getMode h c :
  editable_surface h = Some c → lacks_getMode h = false.
Proof.
  unfold editable_surface, lacks_getMode.
  destruct (activeLeaf h) as [[[v|]]|]; cbn; try done.
  destruct (getMode v); [done|].
  by rewrite (bool_decide_eq_false_2 (None = _)), andb_false_r by done.
Qed.

(** The ways [updateMenu] ends when it does not throw. *)
Lemma updateMenu_no_surface h p :
  editable_surface h = None → lacks_getMode h = false →
  updateMenu h p = Ok (removeFloatingElements p).
Proof.
  unfold editable_surface, lacks_getMode, updateMenu. cbn zeta.
  destruct (activeLeaf h) as [[[v|]]|]; cbn; try done.
  destruct (getMode v) as [m|]; cbn; [|by intros _ ?].
  intros E _.
  destruct (decide (getViewType v = "markdown"%string)) as [Ht|Ht],
           (decide (m = "source"%string)) as [Hm|Hm].
  - rewrite !bool_decide_eq_true_2 in * by congruence. cbn in *. by rewrite E.
  - rewrite (bool_decide_eq_false_2 (Some m = _)) by congruence.
    by rewrite !andb_false_r.
  - by rewrite (bool_decide_eq_false_2 (Some (getViewType v) = _)) by congruence.
  - by rewrite (bool_decide_eq_false_2 (Some (getViewType v) = _)) by congruence.
Qed.

Lemma updateMenu_surface h p c :
  editable_surface h = Some c →
  updateMenu h p
  = let p := removeFloatingElements p in
    let p := set_tree (appendChild c TopButton (tree p)) p in
    let p := positionFloatingElements h c p in
    if enableHeaderMenu (settings p) then
      let p := set_tree (appendChild c MenuContainer (tree p)) p in
      let p := set_menuDisplay "block" p in
      let p := refreshHeaderList h p in
      Ok (registerEvent "layout-change" (CallPosition c) p)
    else Ok p.
Proof.
  unfold editable_surface, updateMenu. cbn zeta.
  destruct (activeLeaf h) as [[[v|]]|]; cbn; try done.
  destruct (getMode v) as [m|]; cbn.
  2:{ by rewrite (bool_decide_eq_false_2 (None = _)), andb_false_r by done. }
  destruct (decide (getViewType v = "markdown"%string)) as [Ht|Ht],
           (decide (m = "source"%string)) as [Hm|Hm].
  - rewrite !bool_decide_eq_true_2 by congruence. cbn. by intros ->.
  - rewrite (bool_decide_eq_false_2 (Some m = _)) by congruence.
    by rewrite andb_false_r.
  - by rewrite (bool_decide_eq_false_2 (getViewType v = _)) by done.
  - by rewrite (bool_decide_eq_false_2 (getViewType v = _)) by done.
Qed.

Lemma outline_missing h s :
  getActiveFile h = None
  ∨ ((activeLeaf h ≫= view) ≫= sourceMode) ≫= cmEditor = None →
  outline h s = [].
Proof.
  unfold outline. intros [-> | ->]; [done|]. by destruct (getActiveFile h).
Qed.

(** What [updateMenu] leaves behind on an editable surface. *)
Lemma updateMenu_attached h p c :
  editable_surface h = Some c →
  ∃ p', updateMenu h p = Ok p'
    ∧ settings p' = settings p
    ∧ tree p' = (c, TopButton)
                :: (if enableHeaderMenu (settings p)
                    then [(c, MenuContainer)] else [])
    ∧ events p' = events p
                  ++ (if enableHeaderMenu (settings p)
                      then [("layout-change"%string, CallPosition c)] else [])
    ∧ headerList p' = (if enableHeaderMenu (settings p)
                       then outline h (settings p) else headerList p)
    ∧ width (menuStyle p') = Some (Px (menuWidth (clientWidth h c)))
    ∧ width (buttonStyle p') = Some (Px (menuWidth (clientWidth h c))).
Proof.
  intros E. rewrite (updateMenu_surface _ _ _ E). cbn zeta.
  cbn [settings positionFloatingElements set_buttonStyle set_menuStyle
       set_tree removeFloatingElements tree].
  rewrite remove_both. cbn [appendChild remove filter app].
  destruct (enableHeaderMenu (settings p)) eqn:En.
  - eexists; split; [done|]. rewrite refreshHeaderList_outline.
    cbn. by rewrite decide_True by done.
  - eexists; split; [done|]. cbn. by rewrite app_nil_r.
Qed.

Lemma updateMenu_detached h p :
  editable_surface h = None → lacks_getMode h = false →
  ∃ p', updateMenu h p = Ok p'
    ∧ settings p' = settings p ∧ tree p' = [] ∧ events p' = events p
    ∧ headerList p' = headerList p.
Proof.
  intros E Hm. rewrite (updateMenu_no_surface _ _ E Hm).
  eexists; split; [done|]. cbn. by rewrite remove_both.
Qed.

(** [updateMenu] returns, and keeps the settings, unless the active view
    has no [getMode]. *)
Lemma updateMenu_ok h p :
  lacks_getMode h = false →
  ∃ p', updateMenu h p = Ok p' ∧ settings p' = settings p.
Proof.
  intros Hm. destruct (editable_surface h) as [c|] eqn:E.
  - destruct (updateMenu_attached h p c E) as (p' & ? & ? & _). eauto.
  - destruct (updateMenu_detached h p E Hm) as (p' & ? & ? & _). eauto.
Qed.

(** ** Missing preconditions *)

(** C10: when there is no active file or no editor handle,
    [refreshHeaderList] has already emptied the list before it returns:
    the heading list ends empty, whatever it held before, and nothing else
    in the plugin changes. *)
Theorem failed_refresh_clears_list (h : Host) (p : Plugin) :
  getActiveFile h = None
  ∨ ((activeLeaf h ≫= view) ≫= sourceMode) ≫= cmEditor = None →
  refreshHeaderList h p = set_headerList [] p
  ∧ headerList (refreshHeaderList h p) = [].
Proof.
  intros H. rewrite refreshHeaderList_outline, outline_missing by done.
  done.
Qed.

Lemma failed_refresh_clears_list_witness :
  let h := mkHost None None (λ _, 1000%Z) in
  let p := set_headerList [mkHeaderItem (js "Intro") 0 0] (onload None) in
  headerList p ≠ [] ∧ headerList (refreshHeaderList h p) = [].
Proof.
  intros h p. split; [done|].
  apply (failed_refresh_clears_list h p). left. reflexivity.
Defined.

(** The cases in which there is no editable surface. *)
Lemma editable_surface_none h :
  activeLeaf h = None
  ∨ (∃ leaf, activeLeaf h = Some leaf
       ∧ (view leaf = None
          ∨ ∃ v, view leaf = Some v
              ∧ (getViewType v ≠ "markdown"%string
                 ∨ getMode v ≠ Some "source"%string
                 ∨ containerEl v = None
                 ∨ ∃ el, containerEl v = Some el ∧ querySelector el = None)))
  ↔ editable_surface h = None.
Proof.
  unfold editable_surface. split.
  - intros [-> | (leaf & -> & Hleaf)]; cbn; [done|].
    destruct Hleaf as [-> | (v & -> & Hv)]; cbn; [done|].
    destruct Hv as [Ht | [Hm | [Hc | (el & Hc & Hq)]]].
    + by rewrite (bool_decide_eq_false_2 _ Ht).
    + by rewrite (bool_decide_eq_false_2 _ Hm), andb_false_r.
    + rewrite Hc. by destruct (_ && _).
    + rewrite Hc. cbn. rewrite Hq. by destruct (_ && _).
  - intros H. destruct (activeLeaf h) as [leaf|]; [|by left]. right.
    exists leaf; split; [done|]. cbn in H.
    destruct (view leaf) as [v|]; [|by left]. right.
    exists v; split; [done|]. cbn in H.
    destruct (decide (getViewType v = "markdown"%string)); [|by left].
    destruct (decide (getMode v = Some "source"%string)); [|by right; left].
    rewrite !bool_decide_eq_true_2 in H by done. cbn in H.
    destruct (containerEl v) as [el|]; [|by right; right; left].
    right; right; right. by exists el.
Qed.

(** C9, what the code does: when the active view has no [getMode]
    method (any view that is not a markdown view), [updateMenu] throws a
    TypeError at the unguarded call, after it has removed the floating
    elements.  In every other case it returns: with both elements detached
    when there is no editable surface, and with the elements attached and
    an empty heading list when only the active file or the editor handle is
    missing. *)
Theorem updateMenu_on_missing_preconditions (h : Host) (p : Plugin) :
  (lacks_getMode h = true →
   updateMenu h p = TypeError ∧ Hidden (removeFloatingElements p))
  ∧ (lacks_getMode h = false → ∃ p', updateMenu h p = Ok p')
  ∧ (lacks_getMode h = false → editable_surface h = None →
     ∃ p', updateMenu h p = Ok p' ∧ Hidden p')
  ∧ (∀ c, editable_surface h = Some c →
     enableHeaderMenu (settings p) = true →
     getActiveFile h = None
     ∨ ((activeLeaf h ≫= view) ≫= sourceMode) ≫= cmEditor = None →
     ∃ p', updateMenu h p = Ok p'
           ∧ headerList p' = []
           ∧ tree p' = [(c, TopButton); (c, MenuContainer)]).
Proof.
  split; [|split; [|split]].
  - intros Hm. split; [by apply updateMenu_throws|].
    apply removeFloatingElements_tree.
  - intros Hm. destruct (updateMenu_ok h p Hm) as (p' & E & _). eauto.
  - intros Hm E.
    destruct (updateMenu_detached h p E Hm) as (p' & ? & _ & ? & _).
    by exists p'.
  - intros c E En Hmiss.
    destruct (updateMenu_attached h p c E) as (p' & ? & _ & Ht & _ & Hl & _).
    exists p'. rewrite Ht, Hl, En, outline_missing by done. done.
Qed.

Lemma updateMenu_on_missing_preconditions_witness :
  let h := mkHost (Some (mkLeaf (Some (mkView "file-explorer" None None None))))
             (Some (mkFile (js "note"))) (λ _, 1000%Z) in
  let p := set_tree [(7, TopButton); (7, MenuContainer)] (onload None) in
  updateMenu h p = TypeError.
Proof.
  intros h p.
  apply (proj1 (updateMenu_on_missing_preconditions h p)).
  reflexivity.
Defined.

(** A markdown view in source mode with its editor container, but no
    active file: [updateMenu] returns normally with both elements
    attached; the overlay is not hidden. *)
Lemma no_active_file_keeps_overlay :
  let h := mkHost (activeLeaf (editing [] 1000)) None (λ _, 1000%Z) in
  getActiveFile h = None
  ∧ ∃ p', updateMenu h (onload None) = Ok p'
          ∧ tree p' = [(7, TopButton); (7, MenuContainer)]
          ∧ ¬ Hidden p'.
Proof.
  cbn zeta. split; [done|]. eexists. split; [by vm_compute|]. by split.
Qed.

(** ** The settings *)

(** Saving and loading again gives the same settings. *)
Lemma loadSettings_saveSettings s : loadSettings (Some (saveSettings s)) = s.
Proof. by destruct s. Qed.





(** A callback that completes. *)
Lemma onChange_ok h c value w :
  lacks_getMode h = false →
  ∃ w', onChange h c value w = Ok w'
    ∧ settings (plugin w') = changed c value (settings (plugin w))
    ∧ disk w' = Some (saveSettings (settings (plugin w')))
    ∧ tab w' = display (settings (plugin w')).
Proof.
  intros Hm. unfold onChange. cbn zeta.
  destruct (updateMenu_ok h (set_settings (changed c value (settings (plugin w)))
                               (plugin w)) Hm) as (p' & -> & Hs).
  cbn. eexists; split; [done|]. cbn. rewrite Hs. by destruct (plugin w).
Qed.

(** Completed or rejected, a callback leaves the changed settings behind,
    saved. *)
Lemma flip_outcome h c value w :
  let w' := match onChange h c value w with
            | Ok w' => w'
            | TypeError => onChange_rejected c value w
            end in
  settings (plugin w') = changed c value (settings (plugin w))
  ∧ disk w' = Some (saveSettings (settings (plugin w'))).
Proof.
  cbn zeta. destruct (lacks_getMode h) eqn:Hm.
  - unfold onChange. cbn zeta. rewrite updateMenu_throws by done. cbn.
    by destruct (plugin w).
  - destruct (onChange_ok h c value w Hm) as (w' & -> & ? & ? & _). done.
Qed.

Lemma acts_snoc trace e w :
  acts (trace ++ [e]) w = act e.1 e.2 (acts trace w).
Proof. unfold acts. by rewrite foldl_snoc. Qed.

Lemma acts_invariant (I : Session → Prop) :
  (∀ h a w, I w → I (act h a w)) →
  ∀ trace w, I w → I (acts trace w).
Proof.
  intros Hstep trace w Hw. induction trace as [|e trace IH] using rev_ind.
  - done.
  - rewrite acts_snoc. by apply Hstep.
Qed.


(** A flip on a stale tab: the menu is disabled while a view without
    [getMode] is active, so [updateMenu] throws and the tab keeps its tier
    toggles; flipping the H1 toggle on then enables the menu again with H1
    alone shown. *)
Example stale_tab_flip :
  let h := mkHost (Some (mkLeaf (Some (mkView "file-explorer" None None None))))
             None (λ _, 0%Z) in
  let w := acts [(h, Open); (h, Flip EnableToggle false)] fresh in
  onChange h EnableToggle false (act h Open fresh) = TypeError
  ∧ settings (plugin w)
    = mkSettings false false false false (Some true) (Some true) (Some true)
  ∧ disk w = Some (saveSettings (settings (plugin w)))
  ∧ (tab w).*1 = [EnableToggle; ShowToggle H1; ShowToggle H2; ShowToggle H3]
  ∧ settings (plugin (act h (Flip (ShowToggle H1) true) w))
    = mkSettings true true false false (Some true) (Some true) (Some true).
Proof. cbn zeta. repeat split; by vm_compute. Qed.



(** C5: disabling the menu and enabling it again gives back the three
    show flags as they were; enabling it when no snapshot is stored sets
    all three to true. *)
Theorem disable_enable_restores (s : Settings) :
  (let s' := onChange_enableHeaderMenu true (onChange_enableHeaderMenu false s) in
   showH1 s' = showH1 s ∧ showH2 s' = showH2 s ∧ showH3 s' = showH3 s
   ∧ enableHeaderMenu s' = true)
  ∧ (previousShowH1 s = None → previousShowH2 s = None →
     previousShowH3 s = None →
     let s' := onChange_enableHeaderMenu true s in
     showH1 s' = true ∧ showH2 s' = true ∧ showH3 s' = true).
Proof.
  split; [done|]. intros P1 P2 P3. cbn. by rewrite P1, P2, P3.
Qed.

Lemma disable_enable_restores_witness :
  let s := mkSettings false false false false None None None in
  let s' := onChange_enableHeaderMenu true s in
  showH1 s' = true ∧ showH2 s' = true ∧ showH3 s' = true.
Proof.
  intros s.
  apply (proj2 (disable_enable_restores s)); reflexivity.
Defined.

(** ** Repeated workspace events *)

Lemma filter_replicate {A} (P : A → Prop) `{∀ x, Decision (P x)} k x :
  filter P (replicate k x) = if decide (P x) then replicate k x else [].
Proof.
  induction k as [|k IH]; cbn [replicate]; [by destruct (decide (P x))|].
  rewrite filter_cons, IH. by destruct (decide (P x)).
Qed.

(** The positioning listeners leave tree, listeners and settings alone. *)
Lemma call_positions h c k p :
  ∃ p', foldl (λ r f, p ← r; call h f p) (Ok p) (replicate k (CallPosition c))
        = Ok p'
    ∧ events p' = events p ∧ settings p' = settings p ∧ tree p' = tree p.
Proof.
  revert p; induction k as [|k IH]; intros p; cbn [replicate foldl].
  - by exists p.
  - cbn. destruct (IH (positionFloatingElements h c p)) as (p' & E & ? & ? & ?).
    exists p'. by rewrite E.
Qed.

Lemma trigger_after_updates h c data k name p :
  editable_surface h = Some c →
  enableHeaderMenu (loadSettings data) = true →
  name = "active-leaf-change"%string ∨ name = "layout-change"%string →
  after_updates data c k p →
  ∃ p', trigger name h p = Ok p' ∧ after_updates data c (S k) p'.
Proof.
  intros Hc Hen Hname (Hev & Hs & Ht).
  destruct (updateMenu_attached h p c Hc) as (p1 & E1 & Hs1 & Ht1 & Hev1 & _).
  rewrite Hs, Hen in Ht1, Hev1.
  assert (H1 : after_updates data c (S k) p1).
  { split; [|split; [congruence|done]].
    rewrite Hev1, Hev, replicate_S_end. by rewrite <- app_assoc. }
  unfold trigger. rewrite Hev, filter_app, filter_replicate, fmap_app.
  destruct Hname as [-> | ->]; cbn;
    repeat case_decide; try discriminate; try congruence; cbn.
  - rewrite E1. by exists p1.
  - rewrite E1, fmap_replicate.
    change (position_listener c).2 with (CallPosition c).
    destruct (call_positions h c k p1) as (p' & E & He & Hse & Htr).
    rewrite E. exists p'. split; [done|].
    destruct H1 as (? & ? & ?). split; [congruence|]. split; [congruence|].
    intros _. rewrite Htr. auto with lia.
Qed.

Lemma triggers_snoc names name h p :
  triggers (names ++ [name]) h p = (p' ← triggers names h p; trigger name h p').
Proof. unfold triggers. by rewrite foldl_snoc. Qed.

Lemma triggers_after_updates h c data names :
  editable_surface h = Some c →
  enableHeaderMenu (loadSettings data) = true →
  Forall (λ name, name = "active-leaf-change"%string
                  ∨ name = "layout-change"%string) names →
  ∃ p', triggers names h (onload data) = Ok p'
        ∧ after_updates data c (length names) p'.
Proof.
  intros Hc Hen. induction names as [|name names IH] using rev_ind; intros Hn.
  - exists (onload data). split; [done|]. split; [|split]; [|done|cbn; lia].
    cbn [length replicate]. by rewrite app_nil_r.
  - apply Forall_app in Hn as [Hn Hname]. inversion_clear Hname as [|? ? Hname' _].
    rename Hname' into Hname.
    destruct (IH Hn) as (p1 & E1 & H1).
    destruct (trigger_after_updates h c data _ name p1 Hc Hen Hname H1)
      as (p' & E & H').
    exists p'. rewrite triggers_snoc, E1. cbn. rewrite E. split; [done|].
    rewrite length_app. cbn. by rewrite Nat.add_1_r.
Qed.

(** C6, what the code does: on an unchanged editable surface with the
    menu enabled, after any run of active-leaf-change and layout-change
    events each floating element sits in the document exactly once, but
    every event has added one more layout-change listener: after [n]
    events the plugin holds [1 + n] of them. *)
Theorem layout_listeners_accumulate (h : Host) (c : nat) (data : option Data)
    (names : list string) :
  editable_surface h = Some c →
  enableHeaderMenu (loadSettings data) = true →
  Forall (λ name, name = "active-leaf-change"%string
                  ∨ name = "layout-change"%string) names →
  ∃ p', triggers names h (onload data) = Ok p'
        ∧ listeners "layout-change" p' = 1 + length names
        ∧ (names ≠ [] →
           occurrences TopButton p' = 1 ∧ occurrences MenuContainer p' = 1).
Proof.
  intros Hc Hen Hn.
  destruct (triggers_after_updates h c data names Hc Hen Hn)
    as (p' & E & Hev & _ & Ht).
  exists p'. split; [done|]. split.
  - unfold listeners. rewrite Hev, filter_app, filter_replicate, length_app.
    cbn. repeat case_decide; try discriminate; try congruence.
    cbn. by rewrite length_replicate.
  - intros Hne. unfold occurrences. rewrite Ht; [done|].
    destruct names; [done|cbn; lia].
Qed.

Lemma layout_listeners_accumulate_witness :
  ∃ p', triggers ["layout-change"; "layout-change"]%string (editing [] 1000)
          (onload None) = Ok p'
        ∧ listeners "layout-change" p' = 3
        ∧ (["layout-change"; "layout-change"]%string ≠ [] →
           occurrences TopButton p' = 1 ∧ occurrences MenuContainer p' = 1).
Proof.
  apply (layout_listeners_accumulate (editing [] 1000) 7 None
           ["layout-change"; "layout-change"]%string).
  - reflexivity.
  - reflexivity.
  - repeat (constructor; [right; reflexivity|]). constructor.
Defined.

(** ** The debounced refresh *)

Lemma filter_none {A} (P : A → Prop) `{∀ x, Decision (P x)} (l : list A) :
  (∀ x, x ∈ l → ¬ P x) → filter P l = [].
Proof.
  induction l as [|x l IH]; intros Hl; [done|].
  rewrite filter_cons_False by (apply Hl; left).
  apply IH. intros y Hy. apply Hl. by right.
Qed.

Lemma last_cons_default {A} (x d : A) (l : list A) :
  List.last (x :: l) d = List.last l x.
Proof.
  revert x d; induction l as [|y l IH]; intros x d; [done|].
  change (List.last (x :: y :: l) d) with (List.last (y :: l) d).
  by rewrite !IH.
Qed.

Section DebounceFacts.
Context {S : Type}.
Variable func : S → S.
Variable delay : N.
Implicit Types (l : Loop S) (t : N).

(** A call cancels what is pending and schedules one execution,
    [delay] from now. *)
Lemma debounced_reschedules l :
  own_timer l →
  queue (debounced delay l) = [(next_handle l, (clock l + delay)%N)]
  ∧ timer (debounced delay l) = Some (next_handle l)
  ∧ clock (debounced delay l) = clock l
  ∧ world (debounced delay l) = world l
  ∧ ran (debounced delay l) = ran l.
Proof.
  intros Hown. unfold debounced.
  assert (Hq : queue (clearTimeout (timer l) l) = []).
  { unfold clearTimeout. destruct (timer l) as [h|] eqn:Et; cbn.
    - apply filter_none. intros e He Hne.
      specialize (Hown e He). congruence.
    - destruct (queue l) as [|e q] eqn:Eq; [done|].
      specialize (Hown e). rewrite Eq in Hown.
      assert (timer l = Some e.1) by (apply Hown; left). congruence. }
  unfold setTimeout. rewrite Hq. cbn.
  by destruct (timer l).
Qed.

Lemma advance_before t l h due :
  queue l = [(h, due)] → (t < due)%N →
  advance func t l
  = mkLoop (N.max (clock l) t) (next_handle l) (queue l) (timer l)
      (world l) (ran l).
Proof.
  intros Hq Ht. unfold advance. rewrite Hq. cbn.
  by rewrite (proj2 (N.leb_gt _ _) Ht).
Qed.

Lemma advance_after t l h due :
  queue l = [(h, due)] → (due ≤ t)%N →
  advance func t l
  = mkLoop (N.max (clock l) t) (next_handle l) [] (timer l)
      (func (world l)) (ran l ++ [due]).
Proof.
  intros Hq Ht. unfold advance. rewrite Hq. cbn.
  by rewrite (proj2 (N.leb_le _ _) Ht).
Qed.

Lemma call_idle t w :
  let l := debounced delay (advance func t (idle w)) in
  armed delay t l ∧ world l = w ∧ ran l = [].
Proof.
  cbn zeta. unfold advance, idle. cbn [queue expire world ran clock next_handle timer].
  destruct (debounced_reschedules (mkLoop (N.max 0 t) 0 [] None w []))
    as (Hq & Ht & Hc & Hw & Hr).
  { intros e He. cbn in He. by apply elem_of_nil in He. }
  cbn in *. rewrite N.max_r in * by lia.
  repeat split; try done. eauto.
Qed.

Lemma call_armed t0 t l :
  armed delay t0 l → (t0 ≤ t ∧ t < t0 + delay)%N →
  let l' := debounced delay (advance func t l) in
  armed delay t l' ∧ world l' = world l ∧ ran l' = ran l.
Proof.
  intros (Hc & h & Hq & Ht) [Hle Hlt]. cbn zeta.
  rewrite (advance_before t l h _ Hq Hlt).
  destruct (debounced_reschedules
              (mkLoop (N.max (clock l) t) (next_handle l) (queue l) (timer l)
                 (world l) (ran l))) as (Hq' & Ht' & Hc' & Hw' & Hr').
  { intros e He. cbn in *. rewrite Hq in He.
    apply list_elem_of_singleton in He. by subst e. }
  cbn in *. rewrite Hc, N.max_r in * by lia.
  repeat split; try done. eauto.
Qed.

Lemma calls_armed ts t0 l :
  armed delay t0 l → in_quick_succession delay t0 ts →
  let l' := calls func delay ts l in
  armed delay (List.last ts t0) l' ∧ world l' = world l ∧ ran l' = ran l.
Proof.
  revert t0 l; induction ts as [|t ts IH]; intros t0 l Ha Hts; cbn zeta.
  - done.
  - destruct Hts as [Ht Hts].
    destruct (call_armed t0 t l Ha Ht) as (Ha' & Hw' & Hr').
    destruct (IH t _ Ha' Hts) as (Ha'' & Hw'' & Hr'').
    unfold calls in *. cbn [foldl].
    rewrite last_cons_default.
    split; [done|]. split; congruence.
Qed.

Lemma calls_cons t ts l :
  calls func delay (t :: ts) l
  = calls func delay ts (debounced delay (advance func t l)).
Proof. done. Qed.

(** Calls in quick succession from rest: one execution, [delay] after
    the last call. *)
Lemma calls_collapse t ts w :
  in_quick_succession delay t ts →
  let l := calls func delay (t :: ts) (idle w) in
  let t' := List.last ts t in
  (∃ h, queue l = [(h, (t' + delay)%N)] ∧ timer l = Some h)
  ∧ ran l = [] ∧ world l = w
  ∧ (∀ T, (T < t' + delay)%N →
       ran (advance func T l) = [] ∧ world (advance func T l) = w)
  ∧ (∀ T, (t' + delay ≤ T)%N →
       ran (advance func T l) = [(t' + delay)%N]
       ∧ world (advance func T l) = func w
       ∧ queue (advance func T l) = []).
Proof.
  intros Hts. cbn zeta. rewrite calls_cons.
  destruct (call_idle t w) as (Ha & Hw & Hr).
  destruct (calls_armed ts t _ Ha Hts) as ((Hc & h & Hq & Ht) & Hw' & Hr').
  rewrite Hw in Hw'. rewrite Hr in Hr'. clear Ha Hw Hr.
  set (l := calls func delay ts _) in *. clearbody l.
  split; [eauto|]. split; [done|]. split; [done|]. split.
  - intros T HT. rewrite (advance_before T l h _ Hq HT). by cbn.
  - intros T HT. rewrite (advance_after T l h _ Hq HT). cbn.
    by rewrite Hr', Hw'.
Qed.
End DebounceFacts.

(** C7: with the delay 150 of [onload], every call of the debounced
    function cancels the pending execution and schedules one 150 later;
    five calls within less than 150 lead to exactly one run of the wrapped
    action, 150 after the fifth call and not before. *)
Theorem debounce_five_calls {S : Type} (func : S → S) (w : S)
    (t1 t2 t3 t4 t5 : N) :
  (t1 ≤ t2 ∧ t2 ≤ t3 ∧ t3 ≤ t4 ∧ t4 ≤ t5 ∧ t5 < t1 + refresh_delay)%N →
  let l := calls func refresh_delay [t1; t2; t3; t4; t5] (idle w) in
  (∀ l0 : Loop S, own_timer l0 →
     queue (debounced refresh_delay l0)
     = [(next_handle l0, (clock l0 + refresh_delay)%N)])
  ∧ (∃ h, queue l = [(h, (t5 + refresh_delay)%N)] ∧ timer l = Some h)
  ∧ ran l = [] ∧ world l = w
  ∧ (∀ T, (T < t5 + refresh_delay)%N →
       ran (advance func T l) = [] ∧ world (advance func T l) = w)
  ∧ (∀ T, (t5 + refresh_delay ≤ T)%N →
       ran (advance func T l) = [(t5 + refresh_delay)%N]
       ∧ world (advance func T l) = func w
       ∧ queue (advance func T l) = []).
Proof.
  generalize refresh_delay as delay.
  intros delay (H12 & H23 & H34 & H45 & H51). cbn zeta.
  split; [intros l0 Hl0; apply (debounced_reschedules delay l0 Hl0)|].
  apply (calls_collapse func delay t1 [t2; t3; t4; t5] w).
  cbn [in_quick_succession]. lia.
Qed.

Lemma debounce_five_calls_witness :
  let h := editing (js "# Intro") 1000 in
  let l := calls (refresh_action h) refresh_delay [0; 30; 60; 90; 120]%N
             (idle (onload None)) in
  ran (advance (refresh_action h) 1000 l) = [270%N]
  ∧ world (advance (refresh_action h) 1000 l) = refresh_action h (onload None).
Proof.
  intros h l.
  assert (H : (0 ≤ 30 ∧ 30 ≤ 60 ∧ 60 ≤ 90 ∧ 90 ≤ 120 ∧ 120 < 0 + refresh_delay)%N)
    by (vm_compute; repeat split; discriminate).
  destruct (debounce_five_calls (refresh_action h) (onload None) 0 30 60 90 120 H)
    as (_ & _ & _ & _ & _ & Hafter).
  destruct (Hafter 1000%N) as (Hr & Hw & _).
  - vm_compute. discriminate.
  - split; [exact Hr|exact Hw].
Defined.

(** ** The menu width *)

Section Rounding.
Local Open Scope Z_scope.

(** One rounding step is off by at most 2^-53 of the exact value. *)
Lemma round_pos_error p :
  0 < p → Z.abs (F64.round_pos p - p) * 2 ^ 53 ≤ p.
Proof.
  intros Hp. unfold F64.round_pos. cbn zeta.
  destruct (Z.leb_spec (Z.log2 p + 1) 53) as [Hb|Hb].
  { rewrite Z.sub_diag. cbn. lia. }
  set (sh := Z.log2 p + 1 - 53).
  assert (Hsh : 1 ≤ sh) by (unfold sh; lia).
  set (half := 2 ^ (sh - 1)).
  assert (Hhalf : 0 < half) by (apply Z.pow_pos_nonneg; lia).
  assert (Hpow : 2 ^ sh = 2 * half).
  { unfold half. rewrite <- Z.pow_succ_r by lia. f_equal. lia. }
  assert (Hlow : half * 2 ^ 53 ≤ p).
  { unfold half. rewrite <- Z.pow_add_r by lia.
    replace (sh - 1 + 53) with (Z.log2 p) by (unfold sh; lia).
    apply Z.log2_spec. lia. }
  rewrite Hpow.
  pose proof (Z.div_mod p (2 * half) ltac:(lia)) as Hdm.
  pose proof (Z.mod_pos_bound p (2 * half) ltac:(lia)) as Hmod.
  set (q := p / (2 * half)) in *. set (r := p mod (2 * half)) in *.
  assert (Hclose : ∀ q', (q' = q ∧ r ≤ half) ∨ (q' = q + 1 ∧ half ≤ r) →
            Z.abs (q' * (2 * half) - p) * 2 ^ 53 ≤ p).
  { intros q' Hq'. etrans; [|exact Hlow].
    apply Z.mul_le_mono_nonneg_r; [lia|].
    destruct Hq' as [[-> Hr]|[-> Hr]]; nia. }
  destruct (Z.ltb_spec r half); [apply Hclose; lia|].
  destruct (Z.ltb_spec half r); [apply Hclose; lia|].
  destruct (Z.even q); apply Hclose; lia.
Qed.

Lemma round_nonneg_error p :
  0 ≤ p → Z.abs (F64.round p - p) * 2 ^ 53 ≤ p.
Proof.
  intros Hp. unfold F64.round.
  destruct (Z.eq_dec p 0) as [->|Hne]; [done|].
  rewrite Z.sgn_pos, (Z.abs_eq p), Z.mul_1_l by lia.
  apply round_pos_error. lia.
Qed.

(** [w * 0.1] is a tenth of [w] up to a relative error of 2^-52. *)
Lemma mul_tenth_error w :
  0 ≤ w →
  2 ^ 52 * Z.abs (10 * F64.mul_int w F64.tenth - F64.of_int w) ≤ F64.of_int w.
Proof.
  intros Hw. unfold F64.mul_int, F64.of_int.
  pose proof (round_nonneg_error (w * F64.tenth)
                ltac:(unfold F64.tenth; lia)) as H.
  unfold F64.tenth in *.
  set (r := F64.round (w * 3602879701896397)) in *. clearbody r.
  change (2 ^ 53) with 9007199254740992 in H.
  change (2 ^ 52) with 4503599627370496.
  change (2 ^ 55) with 36028797018963968.
  lia.
Qed.
End Rounding.

Lemma menuWidth_cases (w : Z) :
  (0 ≤ w)%Z →
  ((w ≤ 1200)%Z → menuWidth w = F64.of_int 120)
  ∧ ((1200 < w)%Z →
     menuWidth w = F64.mul_int w F64.tenth
     ∧ (F64.of_int 120 < menuWidth w)%Z).
Proof.
  intros Hw. pose proof (mul_tenth_error w Hw) as H.
  unfold menuWidth, F64.max.
  assert (E : F64.mul_int 1200 F64.tenth = F64.of_int 120) by (by vm_compute).
  unfold F64.of_int in *.
  change (2 ^ 52)%Z with 4503599627370496%Z in H.
  change (2 ^ 55)%Z with 36028797018963968%Z in *.
  split; intros Hc.
  - destruct (Z.eq_dec w 1200%Z) as [->|Hne]; [rewrite E; lia|].
    set (r := F64.mul_int w F64.tenth) in *. clearbody r. lia.
  - set (r := F64.mul_int w F64.tenth) in *. clearbody r. lia.
Qed.

(** C8: the positioner gives the heading menu and the scroll button the
    same width, [Math.max(120, editorWidth * 0.1)] in binary64
    arithmetic.  That is 120 for every container width up to 1200 (so for
    1000), and above 1200 it is the product, which exceeds 120 and is a
    tenth of the container width up to a relative error of 2^-52. *)
Theorem menu_width_floor (h : Host) (c : nat) (p : Plugin) :
  let w := clientWidth h c in
  let p' := positionFloatingElements h c p in
  (0 ≤ w)%Z →
  width (menuStyle p') = Some (Px (menuWidth w))
  ∧ width (buttonStyle p') = Some (Px (menuWidth w))
  ∧ menuWidth w = F64.max (F64.of_int 120) (F64.mul_int w F64.tenth)
  ∧ ((w ≤ 1200)%Z → menuWidth w = F64.of_int 120)
  ∧ ((1200 < w)%Z →
     menuWidth w = F64.mul_int w F64.tenth
     ∧ (F64.of_int 120 < menuWidth w)%Z)
  ∧ (2 ^ 52 * Z.abs (10 * F64.mul_int w F64.tenth - F64.of_int w)
     ≤ F64.of_int w)%Z
  ∧ menuWidth 1000 = F64.of_int 120.
Proof.
  intros w p' Hw.
  destruct (menuWidth_cases w Hw) as [Hlow Hhigh].
  repeat split; try done.
  - by apply Hhigh.
  - by apply Hhigh.
  - by apply mul_tenth_error.
Qed.

Lemma menu_width_floor_witness :
  let h := editing [] 1000 in
  let p' := positionFloatingElements h 7 (onload None) in
  width (menuStyle p') = Some (Px (F64.of_int 120))
  ∧ width (buttonStyle p') = Some (Px (F64.of_int 120)).
Proof.
  intros h p'.
  assert (Hw : (0 ≤ clientWidth h 7)%Z) by (vm_compute; discriminate).
  destruct (menu_width_floor h 7 (onload None) Hw)
    as (Hm & Hb & _ & Hfloor & _).
  rewrite (Hfloor ltac:(vm_compute; discriminate)) in Hm, Hb.
  split; [exact Hm|exact Hb].
Defined.

(** * Further properties *)

(** ** Settings and their file *)

(** X1: saving the settings and loading them again gives the same
    settings, snapshots included; and a data file that holds the four
    flags is written back unchanged after loading. *)
Theorem settings_round_trip (s : Settings) (d : Data) :
  loadSettings (Some (saveSettings s)) = s
  ∧ (is_Some (d_enableHeaderMenu d) → is_Some (d_showH1 d) →
     is_Some (d_showH2 d) → is_Some (d_showH3 d) →
     saveSettings (loadSettings (Some d)) = d).
Proof.
  split; [apply loadSettings_saveSettings|].
  destruct d as [e a b c pa pb pc]; cbn.
  by intros [? ->] [? ->] [? ->] [? ->].
Qed.

Lemma settings_round_trip_witness :
  let d := mkData (Some false) (Some false) (Some false) (Some false)
             (Some true) None (Some false) in
  saveSettings (loadSettings (Some d)) = d.
Proof.
  intros d.
  apply (proj2 (settings_round_trip (loadSettings None) d)); by eexists.
Defined.

(** X2: from a first start, after any run of reloads, openings of the
    settings tab and toggle flips, also when [updateMenu] throws inside a
    callback, the data file loads back to the settings in memory: a
    restart at any moment changes no setting. *)
Theorem persisted_settings_in_step (trace : list (Host * action)) :
  loadSettings (disk (acts trace fresh)) = settings (plugin (acts trace fresh))
  ∧ settings (onload (disk (acts trace fresh)))
    = settings (plugin (acts trace fresh)).
Proof.
  assert (loadSettings (disk (acts trace fresh))
          = settings (plugin (acts trace fresh))) as H; [|done].
  apply (acts_invariant (λ w, loadSettings (disk w) = settings (plugin w)));
    [|done].
  intros h a w Hw. destruct a as [| |c value]; cbn; [done..|].
  case_bool_decide; [|done].
  destruct (flip_outcome h c value w) as [_ Hd].
  by rewrite Hd, loadSettings_saveSettings.
Qed.

Lemma onChange_enableHeaderMenu_snapshot value s :
  snapshot_kept (onChange_enableHeaderMenu value s).
Proof. destruct value; [done|]. intros _. cbn. eauto. Qed.

(** A tier toggle, fresh or stale, leaves the snapshots and can only
    turn the menu on. *)
Lemma onChange_show_snapshot lv value s :
  snapshot_kept s → snapshot_kept (onChange_show lv value s).
Proof.
  unfold snapshot_kept.
  destruct s as [[] ? ? ? ? ? ?], lv, value; cbn in *; auto; done.
Qed.

(** X3: from a first start, whenever the menu is disabled the three
    snapshots are stored, in memory and in the data file, so enabling the
    menu restores flags that were saved and never falls back to the
    defaults; this also holds after callbacks whose [updateMenu] threw. *)
Theorem disabled_menu_has_snapshot (trace : list (Host * action)) :
  snapshot_kept (settings (plugin (acts trace fresh)))
  ∧ snapshot_kept (loadSettings (disk (acts trace fresh))).
Proof.
  apply (acts_invariant
           (λ w, snapshot_kept (settings (plugin w))
                 ∧ snapshot_kept (loadSettings (disk w)))); [|by split].
  intros h a w [Hs Hd]. destruct a as [| |c value]; cbn; [by split..|].
  case_bool_decide; [|by split].
  destruct (flip_outcome h c value w) as [Hs' Hd'].
  assert (snapshot_kept (changed c value (settings (plugin w)))) as Hk.
  { destruct c as [|lv]; cbn.
    - apply onChange_enableHeaderMenu_snapshot.
    - by apply onChange_show_snapshot. }
  split; [by rewrite Hs'|].
  by rewrite Hd', loadSettings_saveSettings, Hs'.
Qed.

Lemma outline_all_hidden h s :
  showH1 s = false → showH2 s = false → showH3 s = false → outline h s = [].
Proof.
  intros S1 S2 S3. unfold outline.
  destruct (getActiveFile h); [|done]. destruct (_ ≫= cmEditor) as [e|]; [|done].
  unfold rendered. rewrite headings_atx.
  pose proof (pick_atx_levels 0 (split_lines (getValue e))) as Hl.
  induction Hl as [|r hs Hr _ IH]; [done|].
  rewrite filter_cons_False; [done|].
  unfold skipped. rewrite S1, S2, S3. cbn.
  destruct (level r) as [|[|[|[|n]]]]; cbn; try done. lia.
Qed.

(** X4: turning a tier off never disables the menu and touches neither
    the other tiers nor the snapshots; so all three tiers can be off while
    the menu is enabled, and then the list is empty for every document. *)
Theorem tier_off_keeps_menu (lv : tier) (s : Settings) :
  let s' := onChange_show lv false s in
  enableHeaderMenu s' = enableHeaderMenu s
  ∧ show lv s' = false
  ∧ (∀ lv', lv' ≠ lv → show lv' s' = show lv' s)
  ∧ previousShowH1 s' = previousShowH1 s
  ∧ previousShowH2 s' = previousShowH2 s
  ∧ previousShowH3 s' = previousShowH3 s
  ∧ (∀ h, show H1 s' = false → show H2 s' = false → show H3 s' = false →
          outline h s' = []).
Proof.
  cbn zeta. repeat split; try by destruct lv.
  - intros lv' Hne. by destruct lv, lv'.
  - intros h. apply outline_all_hidden.
Qed.

Lemma tier_off_keeps_menu_witness :
  let s := onChange_show H3 false (mkSettings true false false true None None None) in
  enableHeaderMenu s = true
  ∧ outline (editing (js "### Deep") 1000) s = [].
Proof.
  intros s.
  destruct (tier_off_keeps_menu H3 (mkSettings true false false true None None None))
    as (He & _ & _ & _ & _ & _ & Hout).
  split; [exact He|]. apply Hout; reflexivity.
Defined.

(** ** [updateMenu] rebuilds the overlay *)

Lemma updateMenu_updated h p :
  lacks_getMode h = false → updateMenu h p = Ok (updated h p).
Proof.
  intros Hm. unfold updated. destruct (editable_surface h) as [c|] eqn:E.
  - rewrite (updateMenu_surface _ _ _ E). cbn zeta.
    cbn [settings positionFloatingElements set_buttonStyle set_menuStyle
         set_tree removeFloatingElements tree].
    rewrite remove_both. cbn [appendChild remove filter app].
    destruct (enableHeaderMenu (settings p)); [|done].
    rewrite refreshHeaderList_outline. cbn.
    by rewrite decide_True by done.
  - rewrite (updateMenu_no_surface _ _ E Hm). unfold removeFloatingElements.
    cbn. by rewrite remove_both.
Qed.

Lemma updateMenu_Ok h p p1 : updateMenu h p = Ok p1 → p1 = updated h p.
Proof.
  intros E. pose proof (updateMenu_returns _ _ _ E) as Hm.
  rewrite (updateMenu_updated h p Hm) in E. by injection E.
Qed.

(** X5: [updateMenu] throws exactly when the active view has no
    [getMode] method.  Otherwise it returns and, whatever was attached
    before and wherever, the scroll button is then in the document exactly
    when there is an editable surface, the menu exactly when in addition
    the menu is enabled, both in the current editor container, and neither
    occurs twice. *)
Theorem updateMenu_rebuilds (h : Host) (p : Plugin) :
  (lacks_getMode h = true → updateMenu h p = TypeError)
  ∧ (lacks_getMode h = false →
     ∃ p', updateMenu h p = Ok p'
       ∧ tree p' = match editable_surface h with
                   | None => []
                   | Some c => (c, TopButton)
                               :: (if enableHeaderMenu (settings p)
                                   then [(c, MenuContainer)] else [])
                   end
       ∧ (occurrences TopButton p' = 1 ↔ is_Some (editable_surface h))
       ∧ (occurrences MenuContainer p' = 1
          ↔ is_Some (editable_surface h)
            ∧ enableHeaderMenu (settings p) = true)
       ∧ occurrences TopButton p' ≤ 1
       ∧ occurrences MenuContainer p' ≤ 1).
Proof.
  split; [apply updateMenu_throws|]. intros Hm.
  exists (updated h p). split; [by apply updateMenu_updated|].
  unfold updated, occurrences.
  destruct (editable_surface h) as [c|]; cbn.
  - destruct (enableHeaderMenu (settings p)); cbn;
      repeat split; try done; try lia; eauto; try by intros [_ ?].
  - assert (Hno : ¬ is_Some (@None nat)) by (by intros []).
    repeat split; try done; try lia; try (by intros [? _]).
Qed.

Lemma updateMenu_rebuilds_witness :
  let h1 := mkHost (Some (mkLeaf (Some (mkView "graph" None None None))))
              None (λ _, 1000%Z) in
  let h2 := editing [] 1000 in
  let p := set_tree [(3, MenuContainer); (3, TopButton)] (onload None) in
  updateMenu h1 p = TypeError
  ∧ ∃ p', updateMenu h2 p = Ok p'
          ∧ tree p' = [(7, TopButton); (7, MenuContainer)].
Proof.
  intros h1 h2 p. split.
  - apply (proj1 (updateMenu_rebuilds h1 p)). reflexivity.
  - destruct (proj2 (updateMenu_rebuilds h2 p) eq_refl) as (p' & E & Ht & _).
    exists p'. by split.
Defined.

(** X6: [updateMenu] called again on the same host changes nothing but
    the listener list: settings, heading list, styles, display and tree
    are as after the first call. *)
Theorem updateMenu_twice (h : Host) (p p1 p2 : Plugin) :
  updateMenu h p = Ok p1 → updateMenu h p1 = Ok p2 →
  settings p2 = settings p1 ∧ headerList p2 = headerList p1
  ∧ menuDisplay p2 = menuDisplay p1 ∧ menuStyle p2 = menuStyle p1
  ∧ buttonStyle p2 = buttonStyle p1 ∧ tree p2 = tree p1.
Proof.
  intros E1 E2. apply updateMenu_Ok in E1, E2. subst p1 p2.
  unfold updated. destruct (editable_surface h) as [c|]; [|done].
  cbn zeta. destruct (enableHeaderMenu (settings p)) eqn:E; cbn; by rewrite E.
Qed.

Lemma updateMenu_twice_witness :
  let h := editing (js "# Intro") 2000 in
  ∃ p1 p2, updateMenu h (onload None) = Ok p1 ∧ updateMenu h p1 = Ok p2
           ∧ headerList p2 = headerList p1 ∧ tree p2 = tree p1.
Proof.
  intros h. exists (updated h (onload None)), (updated h (updated h (onload None))).
  assert (E1 : updateMenu h (onload None) = Ok (updated h (onload None)))
    by reflexivity.
  assert (E2 : updateMenu h (updated h (onload None))
               = Ok (updated h (updated h (onload None)))) by reflexivity.
  destruct (updateMenu_twice h _ _ _ E1 E2) as (_ & Hl & _ & _ & _ & Ht).
  by split; [|split; [|split]].
Defined.

(** X7: right after [updateMenu] attached the overlay to a container,
    the positioning step that the layout-change listener repeats changes
    nothing as long as the container keeps its width. *)
Theorem position_after_updateMenu (h : Host) (c : nat) (p p1 : Plugin) :
  editable_surface h = Some c → updateMenu h p = Ok p1 →
  positionFloatingElements h c p1 = p1.
Proof.
  intros E E1. apply updateMenu_Ok in E1. subst p1.
  unfold updated. rewrite E. cbn zeta.
  by destruct (enableHeaderMenu (settings p)).
Qed.

Lemma position_after_updateMenu_witness :
  let h := editing (js "# Intro") 2000 in
  positionFloatingElements h 7 (updated h (onload None)) = updated h (onload None).
Proof.
  intros h.
  apply (position_after_updateMenu h 7 (onload None)); reflexivity.
Defined.

(** ** Listeners *)

Lemma call_events h f p :
  lacks_getMode h = false →
  ∃ p' extra, call h f p = Ok p'
    ∧ events p' = events p ++ extra
    ∧ Forall is_position_listener extra
    ∧ settings p' = settings p.
Proof.
  intros Hm. destruct f as [| |c]; cbn.
  - rewrite updateMenu_updated by done. exists (updated h p).
    unfold updated. destruct (editable_surface h) as [c|].
    + cbn zeta. destruct (enableHeaderMenu (settings p)).
      * exists [position_listener c]. repeat split; try done.
        constructor; [by exists c|constructor].
      * exists []. cbn. by rewrite app_nil_r.
    + exists []. cbn. by rewrite app_nil_r.
  - exists p, []. by rewrite app_nil_r.
  - eexists _, []. split; [done|]. cbn. by rewrite app_nil_r.
Qed.

Lemma calls_events h fs p :
  lacks_getMode h = false →
  ∃ p' extra, foldl (λ r f, p ← r; call h f p) (Ok p) fs = Ok p'
    ∧ events p' = events p ++ extra
    ∧ Forall is_position_listener extra
    ∧ settings p' = settings p.
Proof.
  intros Hm. induction fs as [|f fs IH] using rev_ind.
  - exists p, []. by rewrite app_nil_r.
  - destruct IH as (p1 & x1 & E1 & Hev1 & Hx1 & Hs1).
    destruct (call_events h f p1 Hm) as (p2 & x2 & E2 & Hev2 & Hx2 & Hs2).
    exists p2, (x1 ++ x2). rewrite foldl_snoc, E1. cbn.
    split; [done|]. split; [by rewrite Hev2, Hev1, app_assoc|].
    split; [by apply Forall_app|congruence].
Qed.

Lemma dispatch_snoc evs e p :
  dispatch (evs ++ [e]) p = (p' ← dispatch evs p; trigger e.2 e.1 p').
Proof. unfold dispatch. by rewrite foldl_snoc. Qed.

Lemma dispatch_events evs p :
  Forall (λ e, lacks_getMode e.1 = false) evs →
  ∃ p' extra, dispatch evs p = Ok p'
    ∧ events p' = events p ++ extra
    ∧ Forall is_position_listener extra
    ∧ settings p' = settings p.
Proof.
  induction evs as [|e evs IH] using rev_ind; intros Hall.
  - exists p, []. by rewrite app_nil_r.
  - apply Forall_app in Hall as [Hall He]. inversion_clear He as [|? ? Hm _].
    destruct (IH Hall) as (p1 & x1 & E1 & Hev1 & Hx1 & Hs1).
    destruct (calls_events e.1
                (map snd (filter (λ e0, e0.1 = e.2) (events p1))) p1 Hm)
      as (p2 & x2 & E2 & Hev2 & Hx2 & Hs2).
    exists p2, (x1 ++ x2). rewrite dispatch_snoc, E1. cbn.
    split; [exact E2|]. split; [by rewrite Hev2, Hev1, app_assoc|].
    split; [by apply Forall_app|congruence].
Qed.

Lemma listeners_position name extra :
  name ≠ "layout-change"%string →
  Forall is_position_listener extra →
  filter (λ e : string * listener, e.1 = name) extra = [].
Proof.
  intros Hne. induction 1 as [|e extra [c ->] _ IH]; [done|].
  rewrite filter_cons_False; [done|]. cbn. congruence.
Qed.

(** X8: a run of workspace events, whatever the event names, in which
    every active view met has a [getMode] method runs to the end without a
    throw; it changes no setting and removes no listener: the listeners of
    [onload] stay first and single for active-leaf-change and
    editor-change, and everything added later is a layout-change
    positioning listener. *)
Theorem dispatch_keeps_listeners (evs : list (Host * string))
    (data : option Data) :
  Forall (λ e, lacks_getMode e.1 = false) evs →
  ∃ p' extra, dispatch evs (onload data) = Ok p'
    ∧ events p' = events (onload data) ++ extra
    ∧ Forall is_position_listener extra
    ∧ listeners "active-leaf-change" p' = 1
    ∧ listeners "editor-change" p' = 1
    ∧ listeners "layout-change" p' = 1 + length extra
    ∧ settings p' = loadSettings data.
Proof.
  intros Hall.
  destruct (dispatch_events evs (onload data) Hall)
    as (p' & extra & E & Hev & Hx & Hs).
  exists p', extra. split; [done|]. split; [done|]. split; [done|].
  unfold listeners. rewrite Hev, !filter_app, !length_app.
  rewrite !(listeners_position _ extra) by done.
  repeat split; try done.
  cbn. repeat case_decide; try discriminate; try congruence. cbn.
  f_equal. clear -Hx. induction Hx as [|e extra [c ->] _ IH]; [done|].
  rewrite filter_cons_True by done. cbn. by rewrite IH.
Qed.

Lemma dispatch_keeps_listeners_witness :
  let evs := [(editing [] 1000, "layout-change"%string);
              (mkHost None None (λ _, 0%Z), "active-leaf-change"%string)] in
  ∃ p', dispatch evs (onload None) = Ok p'
        ∧ listeners "active-leaf-change" p' = 1
        ∧ listeners "editor-change" p' = 1.
Proof.
  intros evs.
  destruct (dispatch_keeps_listeners evs None)
    as (p' & extra & E & _ & _ & H1 & H2 & _).
  - repeat (constructor; [reflexivity|]). constructor.
  - exists p'. by split.
Defined.

(** ** The settings tab acts at once *)

(** X9: when a toggle is flipped on an editable surface, the overlay is
    rebuilt from the new settings before the callback returns: the menu is
    attached exactly when the new settings enable it, its list is the
    outline under the new tier flags, and the new settings are what the
    data file holds. *)
Theorem onChange_applies_at_once (h : Host) (c0 : nat) (c : toggle)
    (value : bool) (w : Session) :
  editable_surface h = Some c0 →
  ∃ w', onChange h c value w = Ok w'
    ∧ disk w' = Some (saveSettings (settings (plugin w')))
    ∧ tree (plugin w')
      = (c0, TopButton)
        :: (if enableHeaderMenu (settings (plugin w'))
            then [(c0, MenuContainer)] else [])
    ∧ (enableHeaderMenu (settings (plugin w')) = true →
       headerList (plugin w') = outline h (settings (plugin w')))
    ∧ (c = EnableToggle → value = false →
       tree (plugin w') = [(c0, TopButton)]
       ∧ show H1 (settings (plugin w')) = false
       ∧ show H2 (settings (plugin w')) = false
       ∧ show H3 (settings (plugin w')) = false).
Proof.
  intros E. unfold onChange. cbn zeta.
  rewrite updateMenu_updated by (by eapply editable_surface_getMode). cbn.
  eexists; split; [done|]. cbn. unfold updated. rewrite E. cbn zeta.
  set (s := changed c value (settings (plugin w))).
  assert (Hs : settings (set_settings s (plugin w)) = s) by (by destruct (plugin w)).
  rewrite Hs. destruct (enableHeaderMenu s) eqn:En; cbn; rewrite ?En.
  - split; [done|]. split; [done|]. split; [done|].
    intros -> ->. by cbn in En.
  - split; [done|]. split; [done|]. split; [done|].
    by intros -> ->.
Qed.

Lemma onChange_applies_at_once_witness :
  let h := editing (js "# Intro") 1000 in
  ∃ w', onChange h EnableToggle false fresh = Ok w'
        ∧ tree (plugin w') = [(7, TopButton)].
Proof.
  intros h.
  destruct (onChange_applies_at_once h 7 EnableToggle false fresh eq_refl)
    as (w' & E & _ & _ & _ & Hoff).
  exists w'. split; [exact E|]. by apply Hoff.
Defined.

(** ** Teardown *)

(** X10: [onunload] leaves neither floating element in the document,
    wherever they were attached, and keeps settings and heading list; doing
    it again changes nothing; a later [updateMenu] attaches them afresh. *)
Theorem onunload_hides (h : Host) (p : Plugin) :
  Hidden (onunload p)
  ∧ onunload (onunload p) = onunload p
  ∧ settings (onunload p) = settings p
  ∧ headerList (onunload p) = headerList p
  ∧ updateMenu h (onunload p) = updateMenu h p.
Proof.
  unfold onunload, Hidden. rewrite removeFloatingElements_tree.
  split; [done|]. split.
  - unfold removeFloatingElements. cbn. by rewrite !remove_both.
  - split; [done|]. split; [done|].
    destruct (lacks_getMode h) eqn:Hm.
    + by rewrite !updateMenu_throws.
    + by rewrite !updateMenu_updated.
Qed.

(** X11: [onunload] does not cancel a pending debounced refresh: an
    editor change at time [t] followed by unloading still runs the refresh
    150 later, on the detached elements. *)
Theorem unload_keeps_pending_refresh (h : Host) (p : Plugin) (t T : N) :
  (t + refresh_delay ≤ T)%N →
  let l := debounced refresh_delay (advance (refresh_action h) t (idle p)) in
  let l' := advance (refresh_action h) T (unload l) in
  queue (unload l) = queue l
  ∧ ran l' = [(t + refresh_delay)%N]
  ∧ world l' = refresh_action h (onunload p)
  ∧ Hidden (world l').
Proof.
  intros HT l l'.
  destruct (call_idle (refresh_action h) refresh_delay t p)
    as ((Hc & hd & Hq & Ht) & Hw & Hr).
  fold l in Hc, Hq, Ht, Hw, Hr. split; [done|].
  unfold l'. rewrite (advance_after (refresh_action h) T (unload l) hd _ Hq HT).
  cbn. split; [done|]. split; [done|].
  unfold refresh_action, Hidden. rewrite refreshHeaderList_outline. cbn.
  apply remove_both.
Qed.

Lemma unload_keeps_pending_refresh_witness :
  let h := editing (js "# Intro") 1000 in
  let l := debounced refresh_delay
             (advance (refresh_action h) 10 (idle (updated h (onload None)))) in
  ran (advance (refresh_action h) 500 (unload l)) = [160%N].
Proof.
  intros h l.
  assert (H : (10 + refresh_delay ≤ 500)%N) by (vm_compute; discriminate).
  destruct (unload_keeps_pending_refresh h (updated h (onload None)) 10 500 H)
    as (_ & Hr & _).
  exact Hr.
Defined.

(** ** The heading list *)

(** X12: refreshing twice is refreshing once, and what the list holds
    after a refresh depends on the host and the settings only, not on what
    it held before. *)
Theorem refresh_replaces_list (h : Host) (p q : Plugin) :
  refreshHeaderList h (refreshHeaderList h p) = refreshHeaderList h p
  ∧ (settings p = settings q →
     headerList (refreshHeaderList h p) = headerList (refreshHeaderList h q)).
Proof.
  rewrite !refreshHeaderList_outline. split; [by destruct p|].
  cbn. by intros ->.
Qed.

Lemma refresh_replaces_list_witness :
  let h := editing (js "# Intro") 1000 in
  headerList (refreshHeaderList h (onload None))
  = headerList (refreshHeaderList h
                  (set_headerList [mkHeaderItem (js "Old") 9 24] (onload None))).
Proof.
  intros h.
  apply (proj2 (refresh_replaces_list h (onload None)
                  (set_headerList [mkHeaderItem (js "Old") 9 24] (onload None)))).
  reflexivity.
Defined.

Lemma heading_of_line_index index line r :
  heading_of_line index line = Some r → sourceLineIndex r = index.
Proof.
  unfold heading_of_line. destruct (str_match line header_regex); [|done].
  cbn. by intros [= <-].
Qed.

Lemma pick_headings_bounds index lines :
  Forall (λ r, index ≤ sourceLineIndex r < index + length lines)
    (pick heading_of_line index lines).
Proof.
  revert index; induction lines as [|line lines IH]; intros index; cbn;
    [constructor|].
  assert (Forall (λ r, index ≤ sourceLineIndex r < index + S (length lines))
            (pick heading_of_line (S index) lines)) as Hrest.
  { eapply Forall_impl; [apply IH|]. cbn. intros r ?. lia. }
  destruct (heading_of_line index line) as [r|] eqn:E; [|done].
  constructor; [|done]. apply heading_of_line_index in E. lia.
Qed.

Lemma pick_headings_increasing index lines :
  increasing (sourceLineIndex <$> pick heading_of_line index lines).
Proof.
  revert index; induction lines as [|line lines IH]; intros index; cbn; [done|].
  destruct (heading_of_line index line) as [r|] eqn:E; [|apply IH].
  cbn. split; [|apply IH]. apply heading_of_line_index in E.
  apply Forall_fmap. eapply Forall_impl; [apply pick_headings_bounds|].
  cbn. intros r' ?. lia.
Qed.

Lemma pick_length {A B} (f : nat → A → option B) index l :
  length (pick f index l) ≤ length l.
Proof.
  revert index; induction l as [|x l IH]; intros index; cbn; [done|].
  destruct (f index x); cbn; specialize (IH (S index)); lia.
Qed.

Lemma Forall_filter_keep {A} (Q : A → Prop) (P : A → Prop)
    `{∀ x, Decision (P x)} (l : list A) :
  Forall Q l → Forall Q (filter P l).
Proof.
  induction 1 as [|x l Hx _ IH]; [constructor|].
  rewrite filter_cons. destruct (decide (P x)); [by constructor|done].
Qed.

Lemma increasing_filter {A} (g : A → nat) (P : A → Prop)
    `{∀ x, Decision (P x)} (l : list A) :
  increasing (g <$> l) → increasing (g <$> filter P l).
Proof.
  induction l as [|x l IH]; [done|].
  rewrite fmap_cons. intros [Hx Hl].
  rewrite filter_cons. destruct (decide (P x)); [|by apply IH].
  rewrite fmap_cons. split; [|by apply IH].
  rewrite Forall_fmap. rewrite Forall_fmap in Hx.
  by apply Forall_filter_keep.
Qed.

Lemma rendered_lines s hs :
  dataset_line <$> rendered s hs
  = sourceLineIndex <$> filter (λ r, skipped s (level r) = false) hs.
Proof. unfold rendered. rewrite <- list_fmap_compose. done. Qed.

(** X13: the items of a refreshed list are in document order: their line
    numbers increase strictly, each is the index of a line of the document,
    and there are at most as many items as lines. *)
Theorem items_in_document_order (h : Host) (p : Plugin) (doc : str) (width : Z) :
  increasing (dataset_line <$> headerList (refreshHeaderList h p))
  ∧ Forall (λ it, dataset_line it < length (split_lines doc))
      (headerList (refreshHeaderList (editing doc width) p))
  ∧ length (headerList (refreshHeaderList (editing doc width) p))
    ≤ length (split_lines doc).
Proof.
  rewrite !refreshHeaderList_outline. cbn [headerList set_headerList].
  split; [|split].
  - unfold outline. destruct (getActiveFile h); [|done].
    destruct (_ ≫= cmEditor) as [e|]; [|done].
    rewrite rendered_lines. apply increasing_filter, pick_headings_increasing.
  - change (outline (editing doc width) (settings p))
      with (rendered (settings p) (headings doc)).
    unfold rendered. apply Forall_fmap. apply Forall_filter_keep.
    eapply Forall_impl; [apply pick_headings_bounds|]. cbn. intros r ?. lia.
  - change (outline (editing doc width) (settings p))
      with (rendered (settings p) (headings doc)).
    unfold rendered. rewrite length_fmap.
    etrans; [apply length_filter|]. apply pick_length.
Qed.

Lemma pick_Forall {A B} (Q : B → Prop) (f : nat → A → option B) index l :
  (∀ j x b, f j x = Some b → Q b) → Forall Q (pick f index l).
Proof.
  intros Hf. revert index; induction l as [|x l IH]; intros index; cbn;
    [constructor|].
  destruct (f index x) as [b|] eqn:E; [|apply IH].
  constructor; [by eapply Hf|apply IH].
Qed.

Lemma take_while_Forall {A} (c : A → bool) (l : list A) :
  Forall (λ x, c x = true) (take_while c l).
Proof.
  induction l as [|x l IH]; cbn; [constructor|].
  destruct (c x) eqn:E; by constructor.
Qed.

Lemma drop_while_first {A} (c : A → bool) (l : list A) x rest :
  drop_while c l = x :: rest → c x = false.
Proof.
  induction l as [|y l IH]; cbn; [done|].
  destruct (c y) eqn:E; [done|]. congruence.
Qed.

(** What every matched heading looks like. *)
Lemma atx_heading_cut_shape index line r :
  atx_heading_cut index line = Some r →
  1 ≤ level r ≤ 6
  ∧ Forall (λ c, is_line_terminator c = false) (text r)
  ∧ starts_with class_s (text r) = false.
Proof.
  unfold atx_heading_cut, atx.
  destruct (bool_decide _ && _) eqn:B; [|done]. cbn. intros [= <-]. cbn.
  apply andb_true_iff in B as [B _]. apply bool_decide_eq_true in B.
  split; [done|]. split.
  - eapply Forall_impl; [apply take_while_Forall|].
    intros c Hc. unfold class_dot in Hc. by destruct (is_line_terminator c).
  - destruct (drop_while class_s (drop_while class_hash line)) as [|x t] eqn:E;
      [done|].
    apply drop_while_first in E. cbn. by destruct (class_dot x).
Qed.

Lemma headings_shape doc :
  Forall (λ r, 1 ≤ level r ≤ 6
               ∧ Forall (λ c, is_line_terminator c = false) (text r)
               ∧ starts_with class_s (text r) = false) (headings doc).
Proof.
  rewrite headings_atx. apply pick_Forall.
  intros j x b. apply atx_heading_cut_shape.
Qed.

Lemma skipped_false_level s lv :
  1 ≤ lv → skipped s lv = false → lv = 1 ∨ lv = 2 ∨ lv = 3.
Proof.
  intros H1 Hs. destruct (decide (lv ≤ 3)); [lia|].
  rewrite skipped_deep in Hs by lia. done.
Qed.

(** X14: every item of a refreshed list is indented by 0, 12 or 24
    pixels, and its text holds no line terminator and does not start with
    whitespace (trailing whitespace is kept). *)
Theorem item_shape (h : Host) (p : Plugin) :
  Forall (λ it, (paddingLeft it = 0 ∨ paddingLeft it = 12 ∨ paddingLeft it = 24)
                ∧ Forall (λ c, is_line_terminator c = false) (innerText it)
                ∧ starts_with class_s (innerText it) = false)
    (headerList (refreshHeaderList h p)).
Proof.
  rewrite refreshHeaderList_outline. cbn. unfold outline.
  destruct (getActiveFile h); [|constructor].
  destruct (_ ≫= cmEditor) as [e|]; [|constructor].
  unfold rendered. rewrite Forall_fmap.
  pose proof (headings_shape (getValue e)) as Hs.
  induction Hs as [|r hs (Hl & Ht & Hw) _ IH]; [constructor|].
  rewrite filter_cons. destruct (decide _) as [Hk|]; [|done].
  constructor; [|done]. cbn. split; [|done].
  destruct (skipped_false_level _ _ (proj1 Hl) Hk) as [-> | [-> | ->]]; auto.
Qed.

Lemma rendered_cons s r hs :
  rendered s (r :: hs)
  = (if skipped s (level r) then [] else [item_of r]) ++ rendered s hs.
Proof.
  unfold rendered. rewrite filter_cons.
  destruct (skipped s (level r)); [by rewrite decide_False|].
  by rewrite decide_True.
Qed.

Lemma rendered_other_tiers s lv value hs :
  Forall (λ r, 1 ≤ level r ≤ 6) hs →
  filter (λ it, paddingLeft it ≠ indent lv) (rendered (set_show lv value s) hs)
  = filter (λ it, paddingLeft it ≠ indent lv) (rendered s hs).
Proof.
  induction 1 as [|r hs Hr _ IH]; [done|].
  rewrite !rendered_cons, !filter_app, IH. f_equal.
  unfold skipped, item_of.
  destruct (level r) as [|[|[|[|n]]]] eqn:El; [lia| | | |done];
    destruct lv, value, s as [e [] [] [] ? ? ?]; cbn; rewrite ?El; done.
Qed.

Lemma rendered_hidden_tier s lv hs :
  Forall (λ r, 1 ≤ level r ≤ 6) hs →
  Forall (λ it, paddingLeft it ≠ indent lv) (rendered (set_show lv false s) hs).
Proof.
  induction 1 as [|r hs Hr _ IH]; [constructor|].
  rewrite rendered_cons. apply Forall_app. split; [|done].
  unfold skipped, item_of.
  destruct (level r) as [|[|[|[|n]]]] eqn:El; [lia| | | |constructor];
    destruct lv, s as [e [] [] [] ? ? ?]; cbn; rewrite ?El;
    repeat constructor; cbn; rewrite ?El; done.
Qed.

Lemma headings_levels doc : Forall (λ r, 1 ≤ level r ≤ 6) (headings doc).
Proof. rewrite headings_atx. apply pick_atx_levels. Qed.

(** X15: a tier flag decides about the items of its own indentation
    only: switching it changes no item of the other two tiers, and with the
    flag off no item of that tier is listed. *)
Theorem tier_flags_are_independent (h : Host) (s : Settings) (lv : tier)
    (value : bool) :
  filter (λ it, paddingLeft it ≠ indent lv) (outline h (set_show lv value s))
  = filter (λ it, paddingLeft it ≠ indent lv) (outline h s)
  ∧ Forall (λ it, paddingLeft it ≠ indent lv) (outline h (set_show lv false s)).
Proof.
  unfold outline. destruct (getActiveFile h); [|by split].
  destruct (_ ≫= cmEditor) as [e|]; [|by split]. split.
  - apply rendered_other_tiers, headings_levels.
  - apply rendered_hidden_tier, headings_levels.
Qed.

(** X16: a line that does not begin with [#] (empty, plain or indented)
    is never a heading, so a document without such lines, the empty one
    included, gives an empty list. *)
Theorem no_leading_hash_no_heading (doc : str) (width : Z) (p : Plugin) :
  (∀ index line, starts_with class_hash line = false →
                 heading_of_line index line = None)
  ∧ (Forall (λ line, starts_with class_hash line = false) (split_lines doc) →
     headings doc = []
     ∧ headerList (refreshHeaderList (editing doc width) p) = [])
  ∧ headings [] = [].
Proof.
  assert (Hline : ∀ index line, starts_with class_hash line = false →
                    heading_of_line index line = None).
  { intros index line Hl. rewrite heading_of_line_atx.
    unfold atx_heading_cut, atx.
    destruct line as [|x line]; [done|]. cbn in Hl. cbn. by rewrite Hl. }
  split; [done|]. split; [|done].
  intros Hall. assert (E : headings doc = []).
  { unfold headings. generalize 0.
    induction Hall as [|line lines Hl _ IH]; intros i; cbn; [done|].
    by rewrite Hline. }
  split; [done|]. rewrite refreshHeaderList_outline.
  change (outline (editing doc width) (settings p))
    with (rendered (settings p) (headings doc)).
  by rewrite E.
Qed.

Lemma no_leading_hash_no_heading_witness :
  let doc := unlines [js "plain text"; js "  # indented"; js ""] in
  headerList (refreshHeaderList (editing doc 1000) (onload None)) = [].
Proof.
  intros doc.
  apply (proj1 (proj2 (no_leading_hash_no_heading doc 1000 (onload None)))).
  repeat constructor.
Defined.

(** X17: splitting at line feeds loses nothing: the pieces joined with
    line feeds are the text again, no piece holds a line feed, and there is
    always at least one piece. *)
Theorem split_lines_join (s : str) :
  join_lines (split_lines s) = s
  ∧ Forall (Forall (λ c, c ≠ LF)) (split_lines s)
  ∧ split_lines s ≠ [].
Proof.
  induction s as [|c s (IHj & IHf & IHn)]; [repeat split; by repeat constructor|].
  cbn [split_lines]. destruct (N.eqb_spec c LF) as [->|Hc].
  - split; [|split; [by constructor|done]].
    cbn. destruct (split_lines s); [done|]. by rewrite IHj.
  - destruct (split_lines s) as [|l ls]; [done|].
    inversion_clear IHf as [|? ? Hl Hls].
    split; [|split; [by repeat constructor|done]].
    cbn in *. destruct ls; by rewrite <- IHj.
Qed.

(** ** Navigation *)

(** X18: clicking an item asks the host to open the link made of the
    file's base name, [#] and the item's text; two items of one file lead
    to the same link exactly when their texts are equal, whatever their
    lines; without an active file nothing is asked. *)
Theorem click_navigates_by_text (h : Host) (a b : HeaderItem) :
  (getActiveFile h = None → click_item h a = [])
  ∧ (∀ file, getActiveFile h = Some file →
       click_item h a
       = [OpenLinkText (basename file ++ HASH :: innerText a) [] false]
       ∧ (click_item h a = click_item h b ↔ innerText a = innerText b)).
Proof.
  unfold click_item, navigateToHeader. split; [by intros ->|].
  intros file ->. split; [done|]. split.
  - intros [= E]. by apply app_inv_head in E as [= ->].
  - by intros ->.
Qed.

Lemma click_navigates_by_text_witness :
  let h := editing [] 1000 in
  click_item h (mkHeaderItem (js "Setup") 2 12)
  = click_item h (mkHeaderItem (js "Setup") 40 0).
Proof.
  intros h.
  apply (proj2 (click_navigates_by_text h (mkHeaderItem (js "Setup") 2 12)
                  (mkHeaderItem (js "Setup") 40 0)) (mkFile (js "note")) eq_refl).
  reflexivity.
Defined.

(** ** More on the debounced function *)

Section DebounceMore.
Context {S : Type}.
Variable func : S → S.
Variable delay : N.
Implicit Types (l : Loop S) (t : N).



Lemma advance_inv w n t l :
  debounce_inv func w n l → debounce_inv func w n (advance func t l).
Proof.
  intros (Hown & Hlen & Hn & Hw). unfold advance.
  destruct (queue l) as [|[h due] [|e q]] eqn:Hq; cbn in Hlen, Hn; [| |lia].
  - cbn. split; [by intros e He; apply elem_of_nil in He|]. cbn.
    split; [lia|]. split; [lia|done].
  - cbn. destruct (due <=? t)%N; cbn.
    + split; [by intros e He; apply elem_of_nil in He|]. cbn.
      split; [lia|]. rewrite length_app. cbn.
      split; [lia|]. by rewrite Nat.add_1_r, Hw.
    + split; [|by cbn; split; [lia|split; [lia|done]]].
      intros e He. cbn in *. apply Hown. by rewrite Hq.
Qed.

Lemma debounced_inv w n l :
  debounce_inv func w n l → debounce_inv func w (Datatypes.S n) (debounced delay l)
  ∧ length (queue (debounced delay l)) = 1.
Proof.
  intros (Hown & Hlen & Hn & Hw).
  destruct (debounced_reschedules delay l Hown) as (Hq & Ht & Hc & Hw' & Hr).
  split; [|by rewrite Hq].
  split; [|rewrite Hq, Hr, Hw'; cbn; split; [lia|split; [lia|done]]].
  intros e He. rewrite Hq in He. apply list_elem_of_singleton in He.
  by rewrite Ht, He.
Qed.

Lemma calls_inv w ts :
  debounce_inv func w (length ts) (calls func delay ts (idle w))
  ∧ (ts ≠ [] → length (queue (calls func delay ts (idle w))) = 1).
Proof.
  induction ts as [|t ts [IH _]] using rev_ind.
  - split; [|done]. split; [by intros e He; apply elem_of_nil in He|].
    cbn. auto.
  - unfold calls in *. rewrite foldl_snoc, length_app, Nat.add_1_r.
    destruct (debounced_inv w (length ts) _ (advance_inv w _ t _ IH)) as [H1 H2].
    done.
Qed.
End DebounceMore.



(** X20: however the debounced function is called (any number of
    calls, at any times), at most one execution is pending, exactly one
    right after a call, and the action has never run more often than the
    function was called; the state is the result of exactly the runs
    logged. *)
Theorem debounce_never_overruns {S : Type} (func : S → S) (w : S)
    (ts : list N) (T : N) :
  let l := calls func refresh_delay ts (idle w) in
  length (queue l) ≤ 1
  ∧ (ts ≠ [] → length (queue l) = 1)
  ∧ length (ran l) + length (queue l) ≤ length ts
  ∧ length (ran (advance func T l)) ≤ length ts
  ∧ world (advance func T l) = Nat.iter (length (ran (advance func T l))) func w.
Proof.
  cbn zeta.
  destruct (calls_inv func refresh_delay w ts) as [Hinv Hone].
  pose proof (advance_inv func w _ T _ Hinv) as (_ & _ & Hn' & Hw').
  destruct Hinv as (_ & Hlen & Hn & _).
  repeat split; try done. lia.
Qed.

Lemma debounce_never_overruns_witness :
  let l := calls (λ n : nat, n + 1) refresh_delay [5; 400; 3]%N (idle 0) in
  length (queue l) = 1.
Proof.
  intros l.
  apply (proj1 (proj2 (debounce_never_overruns (λ n : nat, n + 1) 0
                         [5; 400; 3]%N 0))).
  discriminate.
Defined.

(** ** More on the menu width *)

Section Tenths.
Local Open Scope Z_scope.

(** For a multiple of ten the product with [0.1] is the exact tenth: the
    error of the literal is rounded away. *)
Lemma mul_tenth_exact m :
  0 ≤ m < 2 ^ 31 → F64.mul_int (10 * m) F64.tenth = F64.of_int m.
Proof.
  intros [H0 Hm]. unfold F64.mul_int, F64.of_int, F64.round, F64.tenth.
  destruct (Z.eq_dec m 0) as [->|Hne]; [done|].
  assert (Hp : 0 < 10 * m * 3602879701896397) by lia.
  rewrite Z.sgn_pos, Z.abs_eq, Z.mul_1_l by lia.
  set (p := 10 * m * 3602879701896397) in *.
  set (b := Z.log2 m).
  assert (Hb0 : 0 ≤ b) by apply Z.log2_nonneg.
  destruct (Z.log2_spec m ltac:(lia)) as [Hlo Hhi]. fold b in Hlo, Hhi.
  rewrite Z.pow_succ_r in Hhi by done.
  set (B := 2 ^ b) in *.
  assert (HB : 0 < B) by (apply Z.pow_pos_nonneg; lia).
  change (2 ^ 31) with 2147483648 in Hm.
  assert (Hb : b ≤ 30).
  { destruct (Z.le_gt_cases b 30) as [|Hgt]; [done|].
    assert (2 ^ 31 ≤ B) by (apply Z.pow_le_mono_r; lia).
    change (2 ^ 31) with 2147483648 in *. lia. }
  assert (H55 : 2 ^ (b + 55) = B * 36028797018963968).
  { rewrite Z.pow_add_r by lia. done. }
  assert (Hlog : Z.log2 p = b + 55).
  { apply Z.log2_unique; [lia|]. rewrite Z.pow_succ_r, H55 by lia.
    unfold p. lia. }
  unfold F64.round_pos. rewrite Hlog. cbn zeta.
  rewrite (proj2 (Z.leb_gt _ _)) by lia.
  replace (b + 55 + 1 - 53) with (b + 3) by lia.
  replace (b + 3 - 1) with (b + 2) by lia.
  assert (H8 : 2 ^ (b + 3) = 8 * B) by (rewrite Z.pow_add_r by lia; cbn; lia).
  assert (H4 : 2 ^ (b + 2) = 4 * B) by (rewrite Z.pow_add_r by lia; cbn; lia).
  set (C := 2 ^ (52 - b)).
  assert (HC : C * (8 * B) = 36028797018963968).
  { unfold C. rewrite <- H8, <- Z.pow_add_r by lia.
    replace (52 - b + (b + 3)) with 55 by lia. done. }
  rewrite H8, H4.
  assert (Hpd : p = 8 * B * (m * C) + 2 * m).
  { replace (8 * B * (m * C)) with (m * (C * (8 * B))) by ring.
    rewrite HC. unfold p. lia. }
  assert (Hq : p / (8 * B) = m * C)
    by (symmetry; apply (Z.div_unique p (8 * B) (m * C) (2 * m)); lia).
  assert (Hr : p mod (8 * B) = 2 * m)
    by (symmetry; apply (Z.mod_unique p (8 * B) (m * C) (2 * m)); lia).
  rewrite Hq, Hr. rewrite (proj2 (Z.ltb_lt _ _)) by lia.
  rewrite <- Z.mul_assoc, HC. reflexivity.
Qed.

Lemma mul_tenth_monotone w1 w2 :
  0 ≤ w1 → w1 ≤ w2 → w2 < 2 ^ 31 →
  F64.mul_int w1 F64.tenth ≤ F64.mul_int w2 F64.tenth.
Proof.
  intros H0 Hle Hlt.
  destruct (Z.eq_dec w1 w2) as [->|Hne]; [done|].
  pose proof (mul_tenth_error w1 ltac:(lia)) as H1.
  pose proof (mul_tenth_error w2 ltac:(lia)) as H2.
  unfold F64.of_int in *.
  change (2 ^ 52) with 4503599627370496 in *.
  change (2 ^ 55) with 36028797018963968 in *.
  change (2 ^ 31) with 2147483648 in *.
  set (r1 := F64.mul_int w1 F64.tenth) in *.
  set (r2 := F64.mul_int w2 F64.tenth) in *. clearbody r1 r2. lia.
Qed.
End Tenths.

(** X21: the computed width never drops below 120 and never shrinks
    when the container grows (container widths are 32-bit integers). *)
Theorem menu_width_monotone (w1 w2 : Z) :
  (0 ≤ w1)%Z → (w1 ≤ w2)%Z → (w2 < 2 ^ 31)%Z →
  (F64.of_int 120 ≤ menuWidth w1)%Z ∧ (menuWidth w1 ≤ menuWidth w2)%Z.
Proof.
  intros H0 Hle Hlt. pose proof (mul_tenth_monotone w1 w2 H0 Hle Hlt).
  unfold menuWidth, F64.max. lia.
Qed.

Lemma menu_width_monotone_witness :
  (F64.of_int 120 ≤ menuWidth 1500)%Z ∧ (menuWidth 1500 ≤ menuWidth 1501)%Z.
Proof.
  apply (menu_width_monotone 1500 1501); vm_compute; (reflexivity || discriminate).
Defined.

(** X22: for a container whose width is a multiple of ten above 1200
    the width set is exactly a tenth of it: the inexact literal [0.1]
    leaves no trace. *)
Theorem menu_width_exact_tenth (h : Host) (c : nat) (p : Plugin) (m : Z) :
  clientWidth h c = (10 * m)%Z → (120 ≤ m)%Z → (m < 2 ^ 31)%Z →
  let p' := positionFloatingElements h c p in
  width (menuStyle p') = Some (Px (F64.of_int m))
  ∧ width (buttonStyle p') = Some (Px (F64.of_int m)).
Proof.
  intros Hw Hlo Hhi. cbn. rewrite Hw. unfold menuWidth.
  rewrite mul_tenth_exact by lia.
  unfold F64.max, F64.of_int. by rewrite Z.max_r by lia.
Qed.

Lemma menu_width_exact_tenth_witness :
  let p' := positionFloatingElements (editing [] 1230) 7 (onload None) in
  width (menuStyle p') = Some (Px (F64.of_int 123)).
Proof.
  intros p'.
  apply (menu_width_exact_tenth (editing [] 1230) 7 (onload None) 123);
    vm_compute; (reflexivity || discriminate).
Defined.

(** ** A heading line, taken apart and put together *)

Lemma take_while_hashes line :
  take_while class_hash line = replicate (length (take_while class_hash line)) HASH.
Proof.
  induction line as [|x line IH]; [done|]. cbn.
  destruct (class_hash x) eqn:E; [|done]. cbn. rewrite <- IH.
  unfold class_hash in E. apply N.eqb_eq in E. by subst.
Qed.

Lemma drop_while_dot_tail (t : str) :
  drop_while class_dot t = []
  ∨ ∃ c tail, drop_while class_dot t = c :: tail ∧ is_line_terminator c = true.
Proof.
  destruct (drop_while class_dot t) as [|c tail] eqn:E; [by left|]. right.
  exists c, tail. split; [done|]. apply drop_while_first in E.
  unfold class_dot in E. by destruct (is_line_terminator c).
Qed.

Lemma take_while_app {A} (c : A → bool) (l1 l2 : list A) :
  Forall (λ x, c x = true) l1 →
  take_while c (l1 ++ l2) = l1 ++ take_while c l2.
Proof. induction 1 as [|x l1 Hx _ IH]; [done|]. cbn. by rewrite Hx, IH. Qed.

Lemma drop_while_app {A} (c : A → bool) (l1 l2 : list A) :
  Forall (λ x, c x = true) l1 →
  drop_while c (l1 ++ l2) = drop_while c l2.
Proof. induction 1 as [|x l1 Hx _ IH]; [done|]. cbn. by rewrite Hx. Qed.

Lemma take_while_stop {A} (c : A → bool) (l : list A) :
  match l with x :: _ => c x = false | [] => True end → take_while c l = [].
Proof. destruct l as [|x l]; [done|]. cbn. by intros ->. Qed.

Lemma drop_while_stop {A} (c : A → bool) (l : list A) :
  match l with x :: _ => c x = false | [] => True end → drop_while c l = l.
Proof. destruct l as [|x l]; [done|]. cbn. by intros ->. Qed.

(** X23: a line is a heading of level [k] with text [t] exactly when it
    reads: [k] times [#] (1 to 6), a non-empty run of whitespace, [t], and
    then nothing or a line terminator and whatever follows.  From a heading
    the line can be rebuilt up to that point; and every line built this way
    around a non-empty text that starts with a non-whitespace character and
    holds no line terminator is recognised with that level and text. *)
Theorem heading_line_decomposes (index : nat) (line : str) :
  (∀ r, heading_of_line index line = Some r →
     ∃ ws tail,
       line = replicate (level r) HASH ++ ws ++ text r ++ tail
       ∧ ws ≠ [] ∧ Forall (λ c, class_s c = true) ws
       ∧ (tail = [] ∨ ∃ c tail', tail = c :: tail'
                                  ∧ is_line_terminator c = true))
  ∧ (∀ k ws t tail,
       line = replicate k HASH ++ ws ++ t ++ tail →
       1 ≤ k ≤ 6 → ws ≠ [] → Forall (λ c, class_s c = true) ws →
       t ≠ [] → starts_with class_s t = false →
       Forall (λ c, is_line_terminator c = false) t →
       (tail = [] ∨ ∃ c tail', tail = c :: tail'
                                ∧ is_line_terminator c = true) →
       heading_of_line index line = Some (mkHeading k t index)).
Proof.
  rewrite heading_of_line_atx. unfold atx_heading_cut, atx. split.
  - intros r. destruct (bool_decide _ && _) eqn:B; [|done]. cbn.
    intros [= <-]. cbn.
    apply andb_true_iff in B as [_ B].
    set (rest := drop_while class_hash line) in *.
    exists (take_while class_s rest),
           (drop_while class_dot (drop_while class_s rest)).
    split; [|split; [|split]].
    + rewrite <- take_while_hashes. rewrite take_drop_while.
      rewrite (app_assoc (take_while class_hash line)).
      fold rest. rewrite <- (take_drop_while class_hash line) at 1.
      fold rest. by rewrite <- app_assoc, take_drop_while.
    + destruct rest as [|x rest']; [done|]. cbn in *. by rewrite B.
    + apply take_while_Forall.
    + apply drop_while_dot_tail.
  - intros k ws t tail -> Hk Hws Hall Ht Hstart Hdot Htail.
    assert (Hh : Forall (λ x, class_hash x = true) (replicate k HASH)).
    { apply Forall_forall. intros x Hx. apply elem_of_replicate in Hx as [-> _].
      done. }
    assert (Hwshead : match ws ++ t ++ tail with
                      | x :: _ => class_hash x = false | [] => True end).
    { destruct ws as [|x ws']; [done|]. cbn. inversion_clear Hall as [|? ? Hx _].
      destruct (class_hash x) eqn:E; [|done].
      unfold class_hash in E. apply N.eqb_eq in E. by subst. }
    rewrite take_while_app, drop_while_app by done.
    rewrite take_while_stop, drop_while_stop by done.
    rewrite app_nil_r, length_replicate.
    rewrite bool_decide_eq_true_2 by done.
    assert (Hsw : starts_with class_s (ws ++ t ++ tail) = true).
    { destruct ws as [|x ws']; [done|]. cbn. by inversion_clear Hall. }
    rewrite Hsw. cbn.
    rewrite drop_while_app by done.
    assert (Hthead : match t ++ tail with
                     | x :: _ => class_s x = false | [] => True end).
    { destruct t as [|x t']; [done|]. done. }
    rewrite drop_while_stop by done.
    rewrite take_while_app.
    2:{ eapply Forall_impl; [exact Hdot|]. intros c Hc. unfold class_dot.
        by rewrite Hc. }
    rewrite take_while_stop; [by rewrite app_nil_r|].
    destruct Htail as [-> | (c & tail' & -> & Hc)]; [done|].
    unfold class_dot. by rewrite Hc.
Qed.

Lemma heading_line_decomposes_witness :
  heading_of_line 3 (js "##" ++ js "  " ++ js "Setup notes" ++ [CR])
  = Some (mkHeading 2 (js "Setup notes") 3).
Proof.
  apply (proj2 (heading_line_decomposes 3 _) 2 (js "  ") (js "Setup notes") [CR]);
    try done.
  - cbn. lia.
  - repeat constructor.
  - repeat constructor.
  - right. by exists CR, [].
Defined.
